(** * Quadratic-divergence solver ([utilities_quadratic.py])

    A shallow embedding of [_objective_numba] and of the class
    [InterDivConstraint] ([_objective], [_min_objective], [iterate],
    [find_ξ]), and the properties of them that the specification states.

    Conventions of the embedding.
    - A numpy array of floats is a list of real numbers; a two-dimensional
      array is the list of its rows.  Arithmetic is that of the reals:
      rounding is not modelled.
    - numpy produces [nan] where a mean is taken over no rows and where
      [M * log M] is evaluated at a component [M <= 0]; such a value is
      [None] in the type [nr] below, and it propagates through arithmetic
      as [nan] does.  Comparisons with [None] are false.
    - Arrays that the program combines are taken to have matching shapes,
      as [__init__] builds them, and [ξ] to be non-zero; numpy and Python
      raise otherwise.  The signs of infinities are not told apart.
    - [scipy.optimize.minimize] and [numpy.linalg.solve] are library code:
      they are parameters of the development.
    - The object's attributes are the fields of the record [solver];
      methods pass the object explicitly and return it.  What is printed is
      appended to the field [stdout]. *)

From Stdlib Require Import String Reals Lra Lia List Bool Arith.
Import ListNotations.
Open Scope R_scope.

(** ** numpy on lists *)

Module Np.

Definition nr := option R.

Definition b2r (b : bool) : R := if b then 1 else 0.

Definition zeros (n : nat) : list R := repeat 0 n.
Definition ones (n : nat) : list R := repeat 1 n.

Fixpoint sum (l : list R) : R :=
  match l with
  | [] => 0
  | x :: l' => x + sum l'
  end.

(** [a @ b] for two vectors of one length. *)
Fixpoint dot (a b : list R) : R :=
  match a, b with
  | x :: a', y :: b' => x * y + dot a' b'
  | _, _ => 0
  end.

(** [A @ v] for a matrix and a vector. *)
Definition matvec (A : list (list R)) (v : list R) : list R :=
  map (fun row => dot row v) A.

(** Element-wise binary operation on two arrays of one shape. *)
Fixpoint zip_with {A B C} (op : A -> B -> C) (a : list A) (b : list B)
  : list C :=
  match a, b with
  | x :: a', y :: b' => op x y :: zip_with op a' b'
  | _, _ => []
  end.

Definition vadd := zip_with Rplus.
Definition vsub := zip_with Rminus.
Definition vmul := zip_with Rmult.

(** [a[mask]]: the entries of [a] where the boolean array is true. *)
Fixpoint select {A} (mask : list bool) (a : list A) : list A :=
  match mask, a with
  | m :: mask', x :: a' =>
      if m then x :: select mask' a' else select mask' a'
  | _, _ => []
  end.

(** [A[:, j]] of a boolean matrix. *)
Definition bcol (j : nat) (A : list (list bool)) : list bool :=
  map (fun row => nth j row false) A.

(** [A[:, a:b]]. *)
Definition cols (a b : nat) (A : list (list R)) : list (list R) :=
  map (fun row => firstn (b - a) (skipn a row)) A.

(** [A.astype(float)]. *)
Definition astype_float (A : list (list bool)) : list (list R) :=
  map (map b2r) A.

(** [x[x<0] = 0]. *)
Definition clip0 (x : list R) : list R :=
  map (fun e => if Rlt_dec e 0 then 0 else e) x.

(** [np.mean]: [nan] on an empty array. *)
Definition mean (l : list R) : nr :=
  match l with
  | [] => None
  | _ => Some (sum l / INR (length l))
  end.

(** [np.max] of a non-empty array. *)
Definition max (l : list R) : R :=
  match l with
  | [] => 0
  | x :: l' => fold_left Rmax l' x
  end.

(** Arithmetic that propagates [nan]. *)
Definition nr_lift2 (op : R -> R -> R) (a b : nr) : nr :=
  match a, b with
  | Some x, Some y => Some (op x y)
  | _, _ => None
  end.

Definition nr_add := nr_lift2 Rplus.
Definition nr_sub := nr_lift2 Rminus.
Definition nr_mul := nr_lift2 Rmult.

Fixpoint nr_sum (l : list nr) : nr :=
  match l with
  | [] => Some 0
  | x :: l' => nr_add x (nr_sum l')
  end.

Definition nr_mean (l : list nr) : nr :=
  match l with
  | [] => None
  | _ => nr_lift2 Rdiv (nr_sum l) (Some (INR (length l)))
  end.

Fixpoint nr_dot (a b : list nr) : nr :=
  match a, b with
  | x :: a', y :: b' => nr_add (nr_mul x y) (nr_dot a' b')
  | _, _ => Some 0
  end.

(** [np.log]: defined on the positive reals ([-inf] at [0] and [nan]
    below it are not real numbers). *)
Definition log (x : R) : nr :=
  if Rlt_dec 0 x then Some (ln x) else None.

(** [A.T] of a matrix with [n] columns. *)
Definition transpose {A} (d : A) (n : nat) (M : list (list A))
  : list (list A) :=
  map (fun j => map (fun row => nth j row d) M) (seq 0 n).

(** [a[i] = x] for an index within the array. *)
Fixpoint set_item {A} (i : nat) (x : A) (a : list A) : list A :=
  match i, a with
  | O, _ :: a' => x :: a'
  | S i', y :: a' => y :: set_item i' x a'
  | _, [] => []
  end.

(** [a[lo:hi] = b] for [b] of length [hi - lo]. *)
Definition set_slice (lo hi : nat) (b a : list R) : list R :=
  firstn lo a ++ b ++ skipn hi a.

(** [bool_matrix @ v]: numpy reads [True] as [1.] and [False] as [0.]. *)
Definition bmatvec (A : list (list bool)) (v : list R) : list R :=
  matvec (astype_float A) v.

(** Division of two numpy floats: a quotient by zero is an infinity or
    [nan], not a real number. *)
Definition nr_div (a b : nr) : nr :=
  match a, b with
  | Some x, Some y => if Req_dec_T y 0 then None else Some (x / y)
  | _, _ => None
  end.

(** [np.abs(a) < t] and [a < 0.]: false on what is not a real number. *)
Definition nr_abs_lt (a : nr) (t : R) : bool :=
  match a with
  | Some x => if Rlt_dec (Rabs x) t then true else false
  | None => false
  end.

Definition nr_neg (a : nr) : bool :=
  match a with
  | Some x => if Rlt_dec x 0 then true else false
  | None => false
  end.

(** [np.eye(n)]. *)
Definition eye (n : nat) : list (list R) :=
  map (fun i => map (fun j => if (i =? j)%nat then 1 else 0) (seq 0 n))
    (seq 0 n).

End Np.

(** ** The objective evaluator *)

(** [_objective_numba(f,g,pd_lag_indicator,pd_indicator_float,state,n_f,v,ξ,λ)]. *)
Definition _objective_numba (f : list (list R)) (g : list R)
  (pd_lag_indicator : list (list bool)) (pd_indicator_float : list (list R))
  (state n_f : nat) (v : list R) (ξ : R) (λ : list R) : Np.nr :=
  let λ_1 := removelast λ in
  let λ_2 := last λ 0 in
  let selector := Np.bcol (state - 1) pd_lag_indicator in
  let term_1 := 0.5 in
  let term_2 :=
    map (fun e => e / (- ξ))
      (map (fun e => e + λ_2)
         (Np.vadd
            (Np.vadd (Np.select selector g)
               (Np.matvec (Np.select selector pd_indicator_float) v))
            (Np.matvec
               (Np.select selector
                  (Np.cols ((state - 1) * n_f) (state * n_f) f))
               λ_1))) in
  let x := map (fun e => term_1 + e) term_2 in
  let x := Np.clip0 x in
  Np.nr_add
    (Np.nr_mul (Np.mean (map (fun e => e ^ 2) x)) (Some (ξ / 2)))
    (Some λ_2).

(** The evaluator as the specification words it, row by row: the rows of
    the state are kept; on each of them
    [z = 0.5 - (g + next_indicator·v + f_block·λ_1 + λ_2)/ξ] is formed and
    a negative [z] is replaced by [0]; the value is
    [mean(z²)·(ξ/2) + λ_2]. *)
Module ObjectiveSpec.

Record row := {
  in_state : bool;
  g_t : R;
  next_indicator_t : list R;
  f_block_t : list R
}.

Fixpoint rows (s k : nat) (lag : list (list bool)) (g : list R)
  (next f : list (list R)) : list row :=
  match lag, g, next, f with
  | l :: lag', y :: g', n :: next', r :: f' =>
      {| in_state := nth (s - 1) l false;
         g_t := y;
         next_indicator_t := n;
         f_block_t := firstn k (skipn ((s - 1) * k) r) |}
      :: rows s k lag' g' next' f'
  | _, _, _, _ => []
  end.

Definition z (v : list R) (ξ : R) (λ_1 : list R) (λ_2 : R) (r : row) : R :=
  Rmax 0
    (0.5 - (g_t r + Np.dot (next_indicator_t r) v
            + Np.dot (f_block_t r) λ_1 + λ_2) / ξ).

Definition objective (f : list (list R)) (g : list R)
  (lag : list (list bool)) (next : list (list R))
  (s k : nat) (v : list R) (ξ : R) (λ : list R) : Np.nr :=
  let λ_1 := firstn k λ in
  let λ_2 := nth k λ 0 in
  let zs := map (z v ξ λ_1 λ_2) (filter in_state (rows s k lag g next f)) in
  option_map (fun m => m * (ξ / 2) + λ_2) (Np.mean (map (fun e => e * e) zs)).

End ObjectiveSpec.

(** ** The libraries the solver calls *)

Module Scipy.

Inductive method := L_BFGS_B | BFGS | CG.

(** The fields of [scipy.optimize.OptimizeResult] that the solver reads. *)
Record OptimizeResult := {
  x : list R;
  fun_ : R;
  success : bool;
  message : string
}.

(** [minimize(fun, x0, method=, tol=, options={'maxiter': })]. *)
Definition minimize_t : Type :=
  (list R -> Np.nr) -> list R -> method -> R -> Z -> OptimizeResult.

End Scipy.

(** [np.linalg.solve(A, B)]; [None] when it raises [LinAlgError]. *)
Definition linalg_solve_t : Type :=
  list (list Np.nr) -> list R -> option (list Np.nr).

(** ** The solver object *)

(** What the program prints, line by line. *)
Inductive line :=
| print_array (a : list R)
| print_solver_warning (ξ : option R) (tol : R)
| print_message (m : string)
| print_max_iter (error : Np.nr).

(** The attributes of an [InterDivConstraint].  [__init__] fills the data
    ([pd_indicator], [pd_indicator_float], [pd_lag_indicator], [X], [f],
    [log_Rw]) from the file it reads, sets [g], [state], [v], [μ] to
    [None], and stores [tol] and [max_iter]; [ξ] and [lower] exist only
    once [iterate] has set them. *)
Record solver := {
  pd_indicator : list (list bool);
  pd_indicator_float : list (list R);
  pd_lag_indicator : list (list bool);
  X : list (list R);
  f : list (list R);
  log_Rw : list R;
  g : option (list R);
  state : option nat;
  v : option (list R);
  μ : option R;
  tol : R;
  max_iter : Z;
  ξ : option R;
  lower : option bool;
  stdout : list line
}.

(** [self.n_f = 4] and [self.n_states = 3] in [__init__]. *)
Definition n_f : nat := 4.
Definition n_states : nat := 3.

Definition set_state (k : nat) (s : solver) : solver :=
  {| pd_indicator := pd_indicator s;
     pd_indicator_float := pd_indicator_float s;
     pd_lag_indicator := pd_lag_indicator s;
     X := X s; f := f s; log_Rw := log_Rw s; g := g s;
     state := Some k;
     v := v s; μ := μ s; tol := tol s; max_iter := max_iter s;
     ξ := ξ s; lower := lower s; stdout := stdout s |}.

Definition set_v (a : list R) (s : solver) : solver :=
  {| pd_indicator := pd_indicator s;
     pd_indicator_float := pd_indicator_float s;
     pd_lag_indicator := pd_lag_indicator s;
     X := X s; f := f s; log_Rw := log_Rw s; g := g s; state := state s;
     v := Some a;
     μ := μ s; tol := tol s; max_iter := max_iter s;
     ξ := ξ s; lower := lower s; stdout := stdout s |}.

Definition set_μ (m : R) (s : solver) : solver :=
  {| pd_indicator := pd_indicator s;
     pd_indicator_float := pd_indicator_float s;
     pd_lag_indicator := pd_lag_indicator s;
     X := X s; f := f s; log_Rw := log_Rw s; g := g s; state := state s;
     v := v s;
     μ := Some m;
     tol := tol s; max_iter := max_iter s;
     ξ := ξ s; lower := lower s; stdout := stdout s |}.

Definition set_ξ_lower (x : R) (lo : bool) (s : solver) : solver :=
  {| pd_indicator := pd_indicator s;
     pd_indicator_float := pd_indicator_float s;
     pd_lag_indicator := pd_lag_indicator s;
     X := X s; f := f s; log_Rw := log_Rw s; g := g s; state := state s;
     v := v s; μ := μ s; tol := tol s; max_iter := max_iter s;
     ξ := Some x; lower := Some lo;
     stdout := stdout s |}.

Definition print (l : line) (s : solver) : solver :=
  {| pd_indicator := pd_indicator s;
     pd_indicator_float := pd_indicator_float s;
     pd_lag_indicator := pd_lag_indicator s;
     X := X s; f := f s; log_Rw := log_Rw s; g := g s; state := state s;
     v := v s; μ := μ s; tol := tol s; max_iter := max_iter s;
     ξ := ξ s; lower := lower s;
     stdout := stdout s ++ [l] |}.

(** A call returns a value and the object, raises, or is still running
    when the steps granted to the outer loop are used up.  [Exception] is
    the one [iterate] raises itself; [UnboundLocalError] is Python's on a
    local variable read before any assignment; [OperandError] is numpy's on
    an operand that is [None]; [LinAlgError] is [np.linalg.solve]'s. *)
Inductive exn :=
| Exception (msg : string)
| UnboundLocalError
| OperandError
| LinAlgError.

Inductive outcome (A : Type) :=
| Return (a : A) (self : solver)
| Raise (e : exn) (self : solver)
| Running.
Arguments Return {A}.
Arguments Raise {A}.
Arguments Running {A}.

(** The mapping [iterate] returns. *)
Record result := {
  r_λ_1 : list R;
  r_λ_2 : list R;
  r_count : nat;
  r_ξ : R;
  r_μ : R;
  r_v : list R;
  RE_cond : list Np.nr;
  RE : Np.nr;
  E_M_cond : list Np.nr;
  P : list (list Np.nr);
  π : list Np.nr;
  P_tilde : list (list Np.nr);
  π_tilde : list Np.nr;
  moment_bound : Np.nr;
  moment_bound_check : Np.nr;
  moment_bound_cond : list Np.nr;
  moment_cond : list Np.nr;
  moment : Np.nr;
  M : list R
}.

(** The local variables of the loop of [iterate]. *)
Record locals := {
  error : R;
  count : nat;
  v_μ : list R;
  λ_1 : list R;
  λ_2 : list R
}.

(** The local variables of the loop of [find_ξ]: [ξ], [lower_bound],
    [upper_bound] and [count]. *)
Record bracket := {
  bξ : R;
  lower_bound : R;
  upper_bound : R;
  bcount : nat
}.

(** ** The quantities [iterate] derives after its loop *)

(** [g + pd_indicator@v - pd_lag_indicator@v - μ + f@λ_1
     + pd_lag_indicator@λ_2], for [g] or [-g] in the place of [g]. *)
Definition inner (ind lag : list (list bool)) (f_ : list (list R))
  (λ_1_ λ_2_ v_ : list R) (μ_ : R) (gs : list R) : list R :=
  Np.vadd
    (Np.vadd
       (map (fun e => e - μ_)
          (Np.vsub (Np.vadd gs (Np.bmatvec ind v_)) (Np.bmatvec lag v_)))
       (Np.matvec f_ λ_1_))
    (Np.bmatvec lag λ_2_).

(** [M = 0.5 - 1./ξ*(...); M[M<0]=0], in either mode. *)
Definition distortion (ind lag : list (list bool)) (f_ : list (list R))
  (λ_1_ λ_2_ v_ : list R) (μ_ : R) (g_ : list R) (ξ_ : R) (lo : bool)
  : list R :=
  if lo then
    Np.clip0
      (map (fun e => 0.5 - 1 / ξ_ * e) (inner ind lag f_ λ_1_ λ_2_ v_ μ_ g_))
  else
    Np.clip0
      (map (fun e => 0.5 - 1 / ξ_ * e)
         (inner ind lag f_ λ_1_ λ_2_ v_ μ_ (map Ropp g_))).

(** The rows of the sample on which state [i] prevails:
    [pd_lag_indicator[:,i-1]]. *)
Definition rows_of (lag : list (list bool)) (i : nat) : list bool :=
  Np.bcol (i - 1) lag.

(** [pd_indicator[pd_lag_indicator[:,i-1]][:,j-1]], read as floats. *)
Definition next_in (ind lag : list (list bool)) (i j : nat) : list R :=
  map Np.b2r (Np.bcol (j - 1) (Np.select (rows_of lag i) ind)).

(** [[h(i) for i in np.arange(1,self.n_states+1,1)]]. *)
Definition per_state {A} (h : nat -> A) : list A :=
  map h (seq 1 n_states).

Definition E_M_cond_of (lag : list (list bool)) (M_ : list R) : list Np.nr :=
  per_state (fun i => Np.mean (Np.select (rows_of lag i) M_)).

Definition P_tilde_of (ind lag : list (list bool)) (M_ : list R)
  : list (list Np.nr) :=
  per_state (fun i =>
    per_state (fun j =>
      Np.mean (Np.vmul (Np.select (rows_of lag i) M_) (next_in ind lag i j)))).

Definition P_of (ind lag : list (list bool)) : list (list Np.nr) :=
  per_state (fun i => per_state (fun j => Np.mean (next_in ind lag i j))).

Definition RE_cond_of (lag : list (list bool)) (M_ : list R) : list Np.nr :=
  per_state (fun i =>
    Np.nr_mean
      (map (fun m => Np.nr_mul (Some m) (Np.log m))
         (Np.select (rows_of lag i) M_))).

Definition moment_bound_cond_of (lag : list (list bool)) (M_ g_ : list R)
  : list Np.nr :=
  per_state (fun i =>
    Np.mean
      (Np.vmul (Np.select (rows_of lag i) M_) (Np.select (rows_of lag i) g_))).

Definition moment_cond_of (lag : list (list bool)) (g_ : list R)
  : list Np.nr :=
  per_state (fun i => Np.mean (Np.select (rows_of lag i) g_)).

(** ** The methods of [InterDivConstraint] *)

Section Methods.

Variable minimize : Scipy.minimize_t.
Variable linalg_solve : linalg_solve_t.

(** [_objective(self, λ)].  An attribute that is still unset makes Python
    raise; [iterate] sets them all before the first call. *)
Definition _objective (self : solver) (λ : list R) : Np.nr :=
  match lower self, g self, state self, v self, ξ self with
  | Some lo, Some g, Some state, Some v, Some ξ =>
      if lo then
        _objective_numba (f self) g (pd_lag_indicator self)
          (pd_indicator_float self) state n_f v ξ λ
      else
        _objective_numba (f self) (map Ropp g) (pd_lag_indicator self)
          (pd_indicator_float self) state n_f v ξ λ
  | _, _, _, _, _ => None
  end.

(** [for method in [m, ...]: model = minimize(...); if model.success: break]:
    the value of [model] after the loop. *)
Fixpoint for_method (run : Scipy.method -> Scipy.OptimizeResult)
  (m : Scipy.method) (rest : list Scipy.method) : Scipy.OptimizeResult :=
  let model := run m in
  if Scipy.success model then model
  else match rest with
       | [] => model
       | m' :: rest' => for_method run m' rest'
       end.

(** [_min_objective(self)]: the triple [(v_μ, λ_1, λ_2)]. *)
Definition _min_objective (self : solver) : (R * list R * R) * solver :=
  let model :=
    for_method
      (fun method =>
         minimize (_objective self) (Np.ones (n_f + 1)) method
           (tol self) (max_iter self))
      Scipy.L_BFGS_B [Scipy.BFGS; Scipy.CG] in
  let self :=
    if Scipy.success model then self
    else print (print_message (Scipy.message model))
           (print (print_solver_warning (ξ self) (tol self)) self) in
  let v_μ := - Scipy.fun_ model in
  let λ_1 := removelast (Scipy.x model) in
  let λ_2 := last (Scipy.x model) 0 in
  ((v_μ, λ_1, λ_2), self).

(** One pass of [for k in np.arange(1,self.n_states+1,1)]. *)
Definition solve_state (acc : solver * locals) (k : nat) : solver * locals :=
  let (self, l) := acc in
  let self := set_state k self in
  let '((a, b, c), self) := _min_objective self in
  (self,
   {| error := error l;
      count := count l;
      v_μ := Np.set_item (k - 1) a (v_μ l);
      λ_1 := Np.set_slice ((k - 1) * n_f) (k * n_f) b (λ_1 l);
      λ_2 := Np.set_item (k - 1) c (λ_2 l) |}).

(** The body of [while error > self.tol]. *)
Definition loop_body (self : solver) (l : locals) : solver * locals :=
  let (self, l) :=
    if (count l =? 0)%nat then
      (set_v (Np.zeros n_states) self,
       {| error := error l;
          count := count l;
          v_μ := Np.zeros n_states;
          λ_1 := Np.zeros (n_states * n_f);
          λ_2 := Np.zeros n_states |})
    else (self, l) in
  let (self, l) := fold_left solve_state (seq 1 n_states) (self, l) in
  let v_old := match v self with Some a => a | None => [] end in
  let self := set_μ (nth 0 (v_μ l) 0) self in
  let v_new := map (fun e => e - nth 0 (v_μ l) 0) (v_μ l) in
  let self := set_v v_new self in
  let error := Np.max (map Rabs (Np.vsub v_new v_old)) in
  let count := (count l + 1)%nat in
  let self := print (print_array v_new) self in
  (self,
   {| error := error; count := count;
      v_μ := v_μ l; λ_1 := λ_1 l; λ_2 := λ_2 l |}).

(** [while error > self.tol: ...], with at most [steps] passes. *)
Fixpoint while_loop (steps : nat) (self : solver) (l : locals)
  : option (solver * locals) :=
  if Rgt_dec (error l) (tol self) then
    match steps with
    | O => None
    | S steps' =>
        let (self, l) := loop_body self l in while_loop steps' self l
    end
  else Some (self, l).

(** [A = P.T - np.eye(n); A[-1] = np.ones(n); B = np.zeros(n); B[-1] = 1.;
    np.linalg.solve(A, B)]. *)
Definition stationary (P : list (list Np.nr)) : option (list Np.nr) :=
  let A :=
    Np.zip_with (Np.zip_with (fun a e => Np.nr_sub a (Some e)))
      (Np.transpose None n_states P) (Np.eye n_states) in
  let A := Np.set_item (n_states - 1) (map Some (Np.ones n_states)) A in
  let B := Np.zeros n_states in
  let B := Np.set_item (n_states - 1) 1 B in
  linalg_solve A B.

(** The part of [iterate] after the loop.  When the loop has not run at
    all, [λ_1] is read before any assignment, or [self.v] is still
    [None]. *)
Definition finish (self : solver) (l : locals) : outcome result :=
  match count l, v self, μ self, g self, ξ self, lower self with
  | S _, Some v_, Some μ_, Some g_, Some ξ_, Some lo =>
      let ind := pd_indicator self in
      let lag := pd_lag_indicator self in
      let M_ := distortion ind lag (f self) (λ_1 l) (λ_2 l) v_ μ_ g_ ξ_ lo in
      let self :=
        if lo then
          print (print_array (inner ind lag (f self) (λ_1 l) (λ_2 l) v_ μ_ g_))
            self
        else self in
      let P_tilde_ := P_tilde_of ind lag M_ in
      match stationary P_tilde_ with
      | None => Raise LinAlgError self
      | Some π_tilde_ =>
          let P_ := P_of ind lag in
          match stationary P_ with
          | None => Raise LinAlgError self
          | Some π_ =>
              let RE_cond_ := RE_cond_of lag M_ in
              let RE_ := Np.nr_dot RE_cond_ π_tilde_ in
              let moment_bound_cond_ := moment_bound_cond_of lag M_ g_ in
              Return
                {| r_λ_1 := λ_1 l; r_λ_2 := λ_2 l; r_count := count l;
                   r_ξ := ξ_; r_μ := μ_; r_v := v_;
                   RE_cond := RE_cond_; RE := RE_;
                   E_M_cond := E_M_cond_of lag M_;
                   P := P_; π := π_;
                   P_tilde := P_tilde_; π_tilde := π_tilde_;
                   moment_bound := Np.nr_dot moment_bound_cond_ π_tilde_;
                   moment_bound_check :=
                     Np.nr_sub (Some μ_) (Np.nr_mul (Some ξ_) RE_);
                   moment_bound_cond := moment_bound_cond_;
                   moment_cond := moment_cond_of lag g_;
                   moment := Np.mean g_;
                   M := M_ |}
                self
          end
      end
  | O, Some _, _, _, _, _ => Raise UnboundLocalError self
  | _, _, _, _, _, _ => Raise OperandError self
  end.

(** [iterate(self, ξ, lower)]. *)
Definition iterate (steps : nat) (self : solver) (ξ_ : R) (lo : bool)
  : outcome result :=
  match g self with
  | None => Raise (Exception "Sorry, please define self.g first!") self
  | Some _ =>
      let self := set_ξ_lower ξ_ lo self in
      match
        while_loop steps self
          {| error := 1; count := 0; v_μ := []; λ_1 := []; λ_2 := [] |}
      with
      | None => Running
      | Some (self, l) => finish self l
      end
  end.

(** The passes of [for i in range(max_iter)] that remain, [n] of them. *)
Fixpoint bisect (steps n : nat) (self : solver) (b : bracket)
  (min_RE : Np.nr) (x_min_RE : R) (lo : bool) (tol_ : R) (max_iter_ : nat)
  : outcome R :=
  match n with
  | O => Return (bξ b) self
  | S n' =>
      match iterate steps self (bξ b) lo with
      | Return result self =>
          let RE_ := RE result in
          let error := Np.nr_sub (Np.nr_div RE_ min_RE) (Some x_min_RE) in
          if Np.nr_abs_lt error tol_ then Return (bξ b) self
          else
            let b :=
              if Np.nr_neg error then
                {| bξ := (lower_bound b + bξ b) / 2;
                   lower_bound := lower_bound b;
                   upper_bound := bξ b;
                   bcount := bcount b |}
              else
                {| bξ := (bξ b + upper_bound b) / 2;
                   lower_bound := bξ b;
                   upper_bound := upper_bound b;
                   bcount := bcount b |} in
            let b :=
              {| bξ := bξ b; lower_bound := lower_bound b;
                 upper_bound := upper_bound b;
                 bcount := (bcount b + 1)%nat |} in
            let self :=
              if (bcount b =? max_iter_)%nat then
                print
                  (print_max_iter
                     (Np.nr_sub (Np.nr_div RE_ min_RE) (Some x_min_RE)))
                  self
              else self in
            bisect steps n' self b min_RE x_min_RE lo tol_ max_iter_
      | Raise e self => Raise e self
      | Running => Running
      end
  end.

(** [find_ξ(self, x_min_RE, lower, tol, max_iter)].  With [max_iter = 0]
    the loop assigns nothing to [ξ] and [return ξ] raises. *)
Definition find_ξ (steps : nat) (self : solver) (x_min_RE : R) (lo : bool)
  (tol_ : R) (max_iter_ : nat) : outcome R :=
  match iterate steps self 100 lo with
  | Return result self =>
      let min_RE := RE result in
      match max_iter_ with
      | O => Raise UnboundLocalError self
      | S _ =>
          bisect steps max_iter_ self
            {| bξ := 1; lower_bound := 0; upper_bound := 100; bcount := 0 |}
            min_RE x_min_RE lo tol_ max_iter_
      end
  | Raise e self => Raise e self
  | Running => Running
  end.

End Methods.

(** ** The specification's formulas *)

(** The distortion as the specification words it, row by row:
    [0.5 − (±g + next_indicator·v − lag_indicator·v − μ + f·λ_1
            + lag_indicator·λ_2)/ξ], a negative value replaced by [0];
    [sign] is [1] in lower-bound mode and [-1] in upper-bound mode. *)
Module DistortionSpec.

Definition sign (lo : bool) : R := if lo then 1 else -1.

Fixpoint M (sg : R) (g : list R) (next lag : list (list bool))
  (f : list (list R)) (v : list R) (μ : R) (λ_1 λ_2 : list R) (ξ : R)
  : list R :=
  match g, next, lag, f with
  | g_t :: g', n :: next', l :: lag', r :: f' =>
      Rmax 0
        (0.5 - (sg * g_t + Np.dot (map Np.b2r n) v - Np.dot (map Np.b2r l) v
                - μ + Np.dot r λ_1 + Np.dot (map Np.b2r l) λ_2) / ξ)
      :: M sg g' next' lag' f' v μ λ_1 λ_2 ξ
  | _, _, _, _ => []
  end.

End DistortionSpec.

(** Every row of a transition matrix sums to [1] within [eps]. *)
Definition row_stochastic (eps : R) (P : list (list Np.nr)) : Prop :=
  Forall (fun row => exists s, Np.nr_sum row = Some s /\ Rabs (s - 1) <= eps)
    P.

(** A row of a boolean indicator matrix with exactly one [true] among its
    three entries. *)
Definition one_hot (row : list bool) : Prop :=
  row = [true; false; false] \/ row = [false; true; false]
  \/ row = [false; false; true].

(** One step of the bisection as the specification words it: with
    [error = RE/min_RE − x], stop at the current [ξ] when [|error| < tol];
    otherwise, when [error < 0], the upper bound becomes [ξ] and [ξ] moves
    to the midpoint with the lower bound; else the lower bound becomes [ξ]
    and [ξ] moves to the midpoint with the upper bound. *)
Module BisectionSpec.

Definition error (RE min_RE : Np.nr) (x : R) : Np.nr :=
  match RE, min_RE with
  | Some r, Some m => if Req_dec_T m 0 then None else Some (r / m - x)
  | _, _ => None
  end.

Definition within (e : Np.nr) (tol : R) : Prop :=
  exists r, e = Some r /\ Rabs r < tol.

Definition negative (e : Np.nr) : Prop :=
  exists r, e = Some r /\ r < 0.

Inductive step (e : Np.nr) (tol : R) (ξ lo hi : R)
  : option (R * R * R) -> Prop :=
| stop : within e tol -> step e tol ξ lo hi None
| down : ~ within e tol -> negative e ->
         step e tol ξ lo hi (Some ((lo + ξ) / 2, lo, ξ))
| up : ~ within e tol -> ~ negative e ->
       step e tol ξ lo hi (Some ((ξ + hi) / 2, ξ, hi)).

End BisectionSpec.

(** What a method leaves alone: the data, [g], the tolerances, [ξ] and the
    mode. *)
Definition frame (s s' : solver) : Prop :=
  pd_indicator s' = pd_indicator s
  /\ pd_indicator_float s' = pd_indicator_float s
  /\ pd_lag_indicator s' = pd_lag_indicator s
  /\ X s' = X s /\ f s' = f s /\ log_Rw s' = log_Rw s
  /\ g s' = g s /\ tol s' = tol s /\ max_iter s' = max_iter s
  /\ ξ s' = ξ s /\ lower s' = lower s.

(** The last line printed is an array ([iterate] has just run), or is the
    diagnostic of [find_ξ]. *)
Definition ends_with_array (s : solver) : Prop :=
  exists pre a, stdout s = pre ++ [print_array a].

Definition ends_with_max_iter (s : solver) : Prop :=
  exists pre e, stdout s = pre ++ [print_max_iter e].

(** ** A small sample *)

(** Five periods in the states 3, 3, 2, 1, 1 give four observations; the
    four factors are zero throughout.  The optimizer is one that leaves its
    starting point where it is and reports failure, as a quasi-Newton
    method does that is allowed no iteration ([max_iter = 0]). *)
Module Sample.

Definition stalled : Scipy.minimize_t :=
  fun objective x0 _ _ _ =>
    {| Scipy.x := x0;
       Scipy.fun_ := match objective x0 with Some y => y | None => 0 end;
       Scipy.success := false;
       Scipy.message := "Maximum number of iterations has been exceeded." |}.

Definition det3 (a b c d e f g h i : R) : R :=
  a * (e * i - f * h) - b * (d * i - f * g) + c * (d * h - e * g).

(** The solution of a system of three equations by Cramer's rule; the
    system is singular when the determinant is zero, and the solution of
    a system with a [nan] in it is [nan] throughout. *)
Definition cramer3 : linalg_solve_t :=
  fun A B =>
    match A, B with
    | [[Some a; Some b; Some c]; [Some d; Some e; Some f];
       [Some g; Some h; Some i]], [p; q; r] =>
        let D := det3 a b c d e f g h i in
        if Req_dec_T D 0 then None
        else Some [Some (det3 p b c q e f r h i / D);
                   Some (det3 a p c d q f g r i / D);
                   Some (det3 a b p d e q g h r / D)]
    | _, _ => Some (map (fun _ => None) B)
    end.

Definition s1 := [true; false; false].
Definition s2 := [false; true; false].
Definition s3 := [false; false; true].

Definition lag_rows : list (list bool) := [s3; s3; s2; s1].
Definition next_rows : list (list bool) := [s3; s2; s1; s1].

Definition data (g_ : option (list R)) : solver :=
  {| pd_indicator := next_rows;
     pd_indicator_float := Np.astype_float next_rows;
     pd_lag_indicator := lag_rows;
     X := repeat (Np.zeros 4) 4;
     f := repeat (Np.zeros 12) 4;
     log_Rw := Np.zeros 4;
     g := g_;
     state := None;
     v := None;
     μ := None;
     tol := 1e-8;
     max_iter := 0;
     ξ := None;
     lower := None;
     stdout := [] |}.

(** [g] constant at zero: the loop of [iterate] stops after one pass. *)
Definition flat : solver := data (Some [0; 0; 0; 0]).


(** A solver that holds the sample, whatever else it has gone through. *)
Definition sampled (g_ : list R) (s : solver) : Prop :=
  pd_indicator s = next_rows
  /\ pd_indicator_float s = Np.astype_float next_rows
  /\ pd_lag_indicator s = lag_rows
  /\ f s = repeat (Np.zeros 12) 4
  /\ g s = Some g_
  /\ tol s = 1e-8.

(** [iterate] has set [ξ] and the mode. *)
Definition armed (ξ_ : R) (lo : bool) (s : solver) : Prop :=
  ξ s = Some ξ_ /\ lower s = Some lo.

(** On the flat sample the objective at the starting point is [q ξ] in
    every state, and the distortion is [m ξ] on every row. *)
Definition q (ξ_ : R) : R := Rmax 0 (0.5 - 1 / ξ_) ^ 2 * (ξ_ / 2) + 1.
Definition m (ξ_ : R) : R := Rmax 0 (0.5 - (1 + q ξ_) / ξ_).

(** On the steep sample, with [v = [0, 0, y]] and [ξ = 1], the objective
    at the starting point is [h k y] in state [k]. *)
Definition h (k : nat) (y : R) : R :=
  if (k =? 3)%nat then (4 - y) ^ 2 / 4 + 1 else 1.

End Sample.

(** * The constructor and what the further properties need *)

(** ** The constructor *)

(** A row of the data file, with the columns the constructor reads:
    ['d.p'], ['Rf'], ['Rm-Rf'], ['SMB'], ['HML'] and ['log.RW']. *)
Record csv_row := {
  d_p : R;
  Rf : R;
  Rm_Rf : R;
  SMB : R;
  HML : R;
  log_RW : R
}.

(** [np.quantile(a, q)]. *)
Definition quantile_t : Type := list R -> R -> R.

(** [a <= t] and [a > t] on an array. *)
Definition le_array (a : list R) (t : R) : list bool :=
  map (fun e => if Rle_dec e t then true else false) a.

Definition gt_array (a : list R) (t : R) : list bool :=
  map (fun e => if Rgt_dec e t then true else false) a.

(** [X * mask] for a column [mask] of booleans, one per row of [X]. *)
Definition mask_rows (X_ : list (list R)) (mask : list bool)
  : list (list R) :=
  Np.zip_with (fun row b => map (fun e => e * Np.b2r b) row) X_ mask.

(** [np.hstack((A, B, C))]. *)
Definition hstack3 (A B C : list (list R)) : list (list R) :=
  Np.zip_with (@app R) (Np.zip_with (@app R) A B) C.

(** [__init__(self, tol, max_iter)], for the table that [pd.read_csv]
    returns. *)
Definition __init__ (quantile : quantile_t) (data : list csv_row) (tol_ : R)
  (max_iter_ : Z) : solver :=
  let pd_lag := map d_p data in
  let tercile_1 := quantile pd_lag (1 / 3) in
  let tercile_2 := quantile pd_lag (2 / 3) in
  let pd_lag_indicator_ :=
    Np.transpose false (length pd_lag)
      [le_array pd_lag tercile_1;
       Np.zip_with andb (le_array pd_lag tercile_2)
         (gt_array pd_lag tercile_1);
       gt_array pd_lag tercile_2] in
  let pd_indicator_ := tl pd_lag_indicator_ in
  let pd_lag_indicator_ := removelast pd_lag_indicator_ in
  let X_ :=
    removelast (map (fun r => [Rf r; Rm_Rf r; SMB r; HML r]) data) in
  {| pd_indicator := pd_indicator_;
     pd_indicator_float := Np.astype_float pd_indicator_;
     pd_lag_indicator := pd_lag_indicator_;
     X := X_;
     f := hstack3 (mask_rows X_ (Np.bcol 0 pd_lag_indicator_))
            (mask_rows X_ (Np.bcol 1 pd_lag_indicator_))
            (mask_rows X_ (Np.bcol 2 pd_lag_indicator_));
     log_Rw := removelast (map log_RW data);
     g := None;
     state := None;
     v := None;
     μ := None;
     tol := tol_;
     max_iter := max_iter_;
     ξ := None;
     lower := None;
     stdout := [] |}.

(** The caller's [self.g = ...]. *)
Definition set_g (g_ : list R) (s : solver) : solver :=
  {| pd_indicator := pd_indicator s;
     pd_indicator_float := pd_indicator_float s;
     pd_lag_indicator := pd_lag_indicator s;
     X := X s; f := f s; log_Rw := log_Rw s;
     g := Some g_;
     state := state s; v := v s; μ := μ s; tol := tol s;
     max_iter := max_iter s; ξ := ξ s; lower := lower s;
     stdout := stdout s |}.

(** The regime of an observation, as the constructor's three comparisons
    give it. *)
Definition classify (t1 t2 x : R) : list bool :=
  [if Rle_dec x t1 then true else false;
   (if Rle_dec x t2 then true else false)
   && (if Rgt_dec x t1 then true else false);
   if Rgt_dec x t2 then true else false].

(** Two solvers hold the same data, [g] and tolerances. *)
Definition same_inputs (s s' : solver) : Prop :=
  pd_indicator s' = pd_indicator s
  /\ pd_indicator_float s' = pd_indicator_float s
  /\ pd_lag_indicator s' = pd_lag_indicator s
  /\ f s' = f s /\ g s' = g s /\ tol s' = tol s
  /\ max_iter s' = max_iter s.


(** Two solvers that [iterate] cannot tell apart once its loop is under
    way: the same inputs, [ξ], mode, [v] and [μ]. *)
Definition in_step (s s' : solver) : Prop :=
  same_inputs s s' /\ ξ s' = ξ s /\ lower s' = lower s
  /\ v s' = v s /\ μ s' = μ s.

(** [t·a + (1 − t)·b], component by component. *)
Definition mix (t : R) (a b : list R) : list R :=
  Np.zip_with (fun x y => t * x + (1 - t) * y) a b.

(** [x] satisfies every equation of the system [A x = B]. *)
Definition solves (A : list (list Np.nr)) (B : list R) (x : list Np.nr)
  : Prop :=
  Forall2 (fun row b => Np.nr_dot row x = Some b) A B.

(** A linear solver that is exact on the systems of [n_states] equations
    with real coefficients. *)
Definition exact_on_states (ls : linalg_solve_t) : Prop :=
  forall a11 a12 a13 a21 a22 a23 a31 a32 a33 b1 b2 b3 y,
    ls [[Some a11; Some a12; Some a13]; [Some a21; Some a22; Some a23];
        [Some a31; Some a32; Some a33]] [b1; b2; b3] = Some y ->
    solves
      [[Some a11; Some a12; Some a13]; [Some a21; Some a22; Some a23];
       [Some a31; Some a32; Some a33]] [b1; b2; b3] y.

(** No entry of the matrix is [nan]. *)
Definition real_matrix (A : list (list Np.nr)) : Prop :=
  Forall (Forall (fun e => e <> None)) A.

(** The sample as a data file: [d.p] is 5, 5, 3, 1, 1 and the factors are
    zero; [np.quantile] gives 5/3 and 13/3 at the levels 1/3 and 2/3 on
    that column. *)
Module SampleFile.

Definition line (x : R) : csv_row :=
  {| d_p := x; Rf := 0; Rm_Rf := 0; SMB := 0; HML := 0; log_RW := 0 |}.

Definition csv : list csv_row := [line 5; line 5; line 3; line 1; line 1].

Definition quantile : quantile_t := fun _ p => 8 * p - 1.

(** A solver on that file, [g] set to zero, with a tolerance that the
    first error of [iterate] cannot exceed. *)
Definition loose : solver := set_g [0; 0; 0; 0] (__init__ quantile csv 1 0).

End SampleFile.

(** The target that the second candidate of the bisection meets on the
    flat sample. *)
Definition x_mid : R :=
  Sample.m ((1 + 100) / 2) * ln (Sample.m ((1 + 100) / 2))
  / (Sample.m 100 * ln (Sample.m 100)).

(** * Properties *)

(** ** The objective evaluator *)

Lemma zip_with_nil_r {A B C} (op : A -> B -> C) (a : list A) :
  Np.zip_with op a [] = [].
Proof. destruct a; reflexivity. Qed.

Lemma clip_Rmax (e : R) : (if Rlt_dec e 0 then 0 else e) = Rmax 0 e.
Proof.
  unfold Rmax. destruct (Rlt_dec e 0), (Rle_dec 0 e); lra.
Qed.

Lemma split_last_len (k : nat) (λ : list R) :
  length λ = (k + 1)%nat ->
  removelast λ = firstn k λ /\ last λ 0 = nth k λ 0.
Proof.
  intros H. destruct (exists_last (l := λ)) as [l [a ->]].
  - intros ->. simpl in H. lia.
  - rewrite length_app in H. simpl in H.
    assert (Hl : length l = k) by lia.
    rewrite removelast_last, last_last. split.
    + rewrite firstn_app, <- Hl, firstn_all, Nat.sub_diag. simpl.
      now rewrite app_nil_r.
    + rewrite app_nth2 by lia. rewrite Hl, Nat.sub_diag. reflexivity.
Qed.

Lemma objective_rows (s k : nat) (v : list R) (ξ : R) (λ_1 : list R) (λ_2 : R)
  (lag : list (list bool)) :
  (1 <= s)%nat -> 0 < ξ ->
  forall (g : list R) (next f : list (list R)),
    Np.clip0
      (map (fun e => 0.5 + e)
         (map (fun e => e / (- ξ))
            (map (fun e => e + λ_2)
               (Np.vadd
                  (Np.vadd (Np.select (Np.bcol (s - 1) lag) g)
                     (Np.matvec (Np.select (Np.bcol (s - 1) lag) next) v))
                  (Np.matvec
                     (Np.select (Np.bcol (s - 1) lag)
                        (Np.cols ((s - 1) * k) (s * k) f))
                     λ_1)))))
    = map (ObjectiveSpec.z v ξ λ_1 λ_2)
        (filter ObjectiveSpec.in_state (ObjectiveSpec.rows s k lag g next f)).
Proof.
  intros Hs Hξ. induction lag as [|l lag IH]; intros g next f.
  - reflexivity.
  - destruct g as [|y g].
    { reflexivity. }
    destruct next as [|n next].
    { simpl. unfold Np.vadd. rewrite zip_with_nil_r. reflexivity. }
    destruct f as [|r f].
    { simpl. unfold Np.vadd. rewrite zip_with_nil_r. reflexivity. }
    simpl. destruct (nth (s - 1) l false) eqn:E; simpl.
    + f_equal; [| apply IH].
      rewrite clip_Rmax. unfold ObjectiveSpec.z. simpl.
      replace (s * k - (s - 1) * k)%nat with k by nia.
      f_equal. field. lra.
    + apply IH.
Qed.

Lemma map_sq (l : list R) : map (fun e => e ^ 2) l = map (fun e => e * e) l.
Proof. apply map_ext. intros. ring. Qed.

(** C1.  For a state in {1,2,3}, [ξ > 0] and [λ] of length [k + 1],
    [_objective_numba] computes what the specification describes: on the
    rows of the state, [z = 0.5 - (g + next_indicator·v + f_block·λ_1
    + λ_2)/ξ] with every negative component replaced by [0], and the value
    [mean(z²)·(ξ/2) + λ_2], where [λ_1] is the first [k] components of [λ]
    and [λ_2] the last. *)
Theorem objective_numba_spec (f : list (list R)) (g : list R)
  (lag : list (list bool)) (next : list (list R)) (s k : nat) (v : list R)
  (ξ : R) (λ : list R) :
  (1 <= s <= 3)%nat -> 0 < ξ -> length λ = (k + 1)%nat ->
  _objective_numba f g lag next s k v ξ λ
  = ObjectiveSpec.objective f g lag next s k v ξ λ.
Proof.
  intros Hs Hξ Hλ. unfold _objective_numba, ObjectiveSpec.objective.
  destruct (split_last_len k λ Hλ) as [-> ->].
  rewrite objective_rows by (lia || lra). rewrite map_sq.
  destruct (Np.mean _); reflexivity.
Qed.

(** ** The loop of [iterate] *)

Section Loop.

Variable minimize : Scipy.minimize_t.
Variable linalg_solve : linalg_solve_t.


Lemma frame_refl s : frame s s.
Proof. repeat split. Qed.

Lemma frame_trans s1 s2 s3 : frame s1 s2 -> frame s2 s3 -> frame s1 s3.
Proof.
  unfold frame. intros H1 H2.
  decompose [and] H1. decompose [and] H2. repeat split; congruence.
Qed.

Lemma min_objective_frame s :
  frame s (snd (_min_objective minimize s))
  /\ v (snd (_min_objective minimize s)) = v s
  /\ μ (snd (_min_objective minimize s)) = μ s
  /\ state (snd (_min_objective minimize s)) = state s.
Proof.
  unfold _min_objective. simpl.
  destruct (Scipy.success _); repeat split.
Qed.

Lemma solve_state_eq s l k :
  solve_state minimize (s, l) k
  = (snd (_min_objective minimize (set_state k s)),
     {| error := error l; count := count l;
        v_μ := Np.set_item (k - 1)
                 (fst (fst (fst (_min_objective minimize (set_state k s))))) (v_μ l);
        λ_1 := Np.set_slice ((k - 1) * n_f) (k * n_f)
                 (snd (fst (fst (_min_objective minimize (set_state k s))))) (λ_1 l);
        λ_2 := Np.set_item (k - 1)
                 (snd (fst (_min_objective minimize (set_state k s)))) (λ_2 l) |}).
Proof. reflexivity. Qed.

Lemma length_set_item {A} i (x : A) a :
  length (Np.set_item i x a) = length a.
Proof.
  revert i. induction a as [|y a IH]; intros [|i]; simpl; auto.
Qed.

Lemma solve_state_keeps s l k :
  let r := solve_state minimize (s, l) k in
  frame s (fst r) /\ v (fst r) = v s /\ μ (fst r) = μ s
  /\ error (snd r) = error l /\ count (snd r) = count l
  /\ length (v_μ (snd r)) = length (v_μ l)
  /\ length (λ_2 (snd r)) = length (λ_2 l).
Proof.
  rewrite solve_state_eq. simpl.
  destruct (min_objective_frame (set_state k s)) as (F & Hv & Hμ & _).
  repeat split; try apply F; auto using length_set_item.
Qed.

Lemma states_keep s l :
  let r := fold_left (solve_state minimize) (seq 1 n_states) (s, l) in
  frame s (fst r) /\ v (fst r) = v s /\ μ (fst r) = μ s
  /\ error (snd r) = error l /\ count (snd r) = count l
  /\ length (v_μ (snd r)) = length (v_μ l)
  /\ length (λ_2 (snd r)) = length (λ_2 l).
Proof.
  generalize (seq 1 n_states). intros ks. revert s l.
  induction ks as [|k ks IH]; intros s l.
  - simpl. repeat split.
  - cbn [fold_left].
    pose proof (solve_state_keeps s l k) as H. cbv zeta in H.
    destruct (solve_state minimize (s, l) k) as [s1 l1].
    cbn [fst snd] in H.
    destruct H as (F & Hv & Hμ & He & Hc & Hl & Hl2).
    specialize (IH s1 l1). cbv zeta in IH |- *.
    destruct IH as (F' & Hv' & Hμ' & He' & Hc' & Hl' & Hl2').
    repeat split; try congruence.
    all: try (eapply frame_trans; eauto).
    all: try apply (frame_trans _ _ _ F F').
Qed.



Lemma loop_body_frame s l : frame s (fst (loop_body minimize s l)).
Proof.
  unfold loop_body.
  destruct (count l =? 0)%nat;
    match goal with
    | |- context [fold_left _ _ (?s0, ?l0)] =>
        pose proof (states_keep s0 l0) as H; cbv zeta in H;
        destruct (fold_left (solve_state minimize) (seq 1 n_states) (s0, l0))
          as [s1 l1]
    end;
    cbn [fst snd] in *; destruct H as (F & _);
    (eapply frame_trans; [|eapply frame_trans; [exact F|]]);
    repeat split.
Qed.

Lemma while_loop_0 s l :
  while_loop minimize 0 s l
  = if Rgt_dec (error l) (tol s) then None else Some (s, l).
Proof. reflexivity. Qed.

Lemma while_loop_S n s l :
  while_loop minimize (S n) s l
  = if Rgt_dec (error l) (tol s)
    then while_loop minimize n (fst (loop_body minimize s l))
           (snd (loop_body minimize s l))
    else Some (s, l).
Proof.
  cbn [while_loop]. destruct (Rgt_dec _ _); [|reflexivity].
  destruct (loop_body minimize s l); reflexivity.
Qed.

(** An invariant of the passes holds when the loop is left, and the loop
    is left only when [error > tol] fails. *)
Lemma while_loop_inv (I : solver -> locals -> Prop) :
  (forall s l, I s l -> error l > tol s ->
     I (fst (loop_body minimize s l)) (snd (loop_body minimize s l))) ->
  forall steps s l s' l',
    I s l -> while_loop minimize steps s l = Some (s', l') ->
    I s' l' /\ ~ error l' > tol s'.
Proof.
  intros Hstep. induction steps as [|n IH]; intros s l s' l' HI H.
  - rewrite while_loop_0 in H.
    destruct (Rgt_dec (error l) (tol s)); [discriminate|].
    inversion H; subst. split; auto.
  - rewrite while_loop_S in H.
    destruct (Rgt_dec (error l) (tol s)) as [Hgt|Hle].
    + eapply IH; [|exact H]. now apply Hstep.
    + inversion H; subst. split; auto.
Qed.

Lemma while_loop_frame steps s l s' l' :
  while_loop minimize steps s l = Some (s', l') -> frame s s'.
Proof.
  intros H.
  apply (while_loop_inv (fun s1 _ => frame s s1)) in H.
  - tauto.
  - intros s1 l1 F _. eapply frame_trans; [exact F|apply loop_body_frame].
  - apply frame_refl.
Qed.

Lemma finish_Return s l res s' :
  finish linalg_solve s l = Return res s' ->
  exists g_ lo,
    g s = Some g_ /\ lower s = Some lo /\ ξ s = Some (r_ξ res)
    /\ v s = Some (r_v res) /\ μ s = Some (r_μ res)
    /\ r_λ_1 res = λ_1 l /\ r_λ_2 res = λ_2 l
    /\ r_count res = count l /\ count l <> 0%nat
    /\ M res = distortion (pd_indicator s) (pd_lag_indicator s) (f s)
                 (r_λ_1 res) (r_λ_2 res) (r_v res) (r_μ res) g_ (r_ξ res) lo
    /\ E_M_cond res = E_M_cond_of (pd_lag_indicator s) (M res)
    /\ P_tilde res = P_tilde_of (pd_indicator s) (pd_lag_indicator s) (M res)
    /\ P res = P_of (pd_indicator s) (pd_lag_indicator s)
    /\ RE_cond res = RE_cond_of (pd_lag_indicator s) (M res)
    /\ RE res = Np.nr_dot (RE_cond res) (π_tilde res)
    /\ stationary linalg_solve (P_tilde res) = Some (π_tilde res)
    /\ stationary linalg_solve (P res) = Some (π res)
    /\ frame s s' /\ v s' = v s /\ μ s' = μ s
    /\ s' = (if lo
             then print
                    (print_array
                       (inner (pd_indicator s) (pd_lag_indicator s) (f s)
                          (λ_1 l) (λ_2 l) (r_v res) (r_μ res) g_)) s
             else s).
Proof.
  unfold finish.
  destruct (count l) as [|n] eqn:Ec, (v s) as [v_|] eqn:Ev; try discriminate.
  destruct (μ s) as [μ_|] eqn:Eμ; try discriminate.
  destruct (g s) as [g_|] eqn:Eg; try discriminate.
  destruct (ξ s) as [ξ_|] eqn:Eξ; try discriminate.
  destruct (lower s) as [lo|] eqn:El; try discriminate.
  cbv zeta.
  destruct (stationary linalg_solve (P_tilde_of _ _ _)) as [πt|] eqn:E1;
    try discriminate.
  destruct (stationary linalg_solve (P_of _ _)) as [π_|] eqn:E2;
    try discriminate.
  intros H. inversion H; subst; clear H. exists g_, lo. cbn.
  destruct lo; repeat split; auto.
Qed.

Lemma iterate_Return steps s ξ_ lo res s' :
  iterate minimize linalg_solve steps s ξ_ lo = Return res s' ->
  exists g_ s1 l1,
    g s = Some g_
    /\ while_loop minimize steps (set_ξ_lower ξ_ lo s)
         {| error := 1; count := 0; v_μ := []; λ_1 := []; λ_2 := [] |}
       = Some (s1, l1)
    /\ finish linalg_solve s1 l1 = Return res s'
    /\ frame (set_ξ_lower ξ_ lo s) s1
    /\ r_ξ res = ξ_
    /\ M res = distortion (pd_indicator s) (pd_lag_indicator s) (f s)
                 (r_λ_1 res) (r_λ_2 res) (r_v res) (r_μ res) g_ ξ_ lo
    /\ E_M_cond res = E_M_cond_of (pd_lag_indicator s) (M res)
    /\ P_tilde res = P_tilde_of (pd_indicator s) (pd_lag_indicator s) (M res)
    /\ P res = P_of (pd_indicator s) (pd_lag_indicator s)
    /\ RE_cond res = RE_cond_of (pd_lag_indicator s) (M res)
    /\ RE res = Np.nr_dot (RE_cond res) (π_tilde res)
    /\ ξ s' = Some ξ_.
Proof.
  unfold iterate. destruct (g s) as [g_|] eqn:Eg; [|discriminate].
  destruct (while_loop _ _ _ _) as [[s1 l1]|] eqn:Ew; [|discriminate].
  intros H. exists g_, s1, l1.
  pose proof (while_loop_frame _ _ _ _ _ Ew) as F.
  destruct (finish_Return _ _ _ _ H)
    as (g' & lo' & Hg & Hlo & Hξ & Hv & Hμ & H1 & H2 & Hc & Hc0 & HM & HE
        & HPt & HP & HRc & HR & _ & _ & F' & _).
  destruct F as (F1 & F2 & F3 & F4 & F5 & F6 & F7 & F8 & F9 & F10 & F11).
  cbn in F1, F3, F5, F7, F10, F11.
  rewrite F1, F3, F5 in *.
  assert (g' = g_) by congruence. assert (lo' = lo) by congruence.
  assert (r_ξ res = ξ_) by congruence. subst.
  repeat split; auto.
  destruct F' as (_ & _ & _ & _ & _ & _ & _ & _ & _ & F'ξ & _). congruence.
Qed.

End Loop.

(** ** The distortion *)

Lemma clip0_inner_rows (sg : R) (v_ : list R) (μ_ : R) (λ_1_ λ_2_ : list R)
  (ξ_ : R) (g_ : list R) :
  forall (ind lag : list (list bool)) (f_ : list (list R)),
    Np.clip0
      (map (fun e => 0.5 - 1 / ξ_ * e)
         (inner ind lag f_ λ_1_ λ_2_ v_ μ_ (map (Rmult sg) g_)))
    = DistortionSpec.M sg g_ ind lag f_ v_ μ_ λ_1_ λ_2_ ξ_.
Proof.
  unfold inner, Np.vadd, Np.vsub, Np.bmatvec, Np.matvec, Np.astype_float.
  induction g_ as [|y g_ IH]; intros ind lag f_.
  - reflexivity.
  - destruct ind as [|n ind]; [reflexivity|].
    destruct lag as [|l lag].
    { simpl. rewrite ?zip_with_nil_r. reflexivity. }
    destruct f_ as [|r f_].
    { simpl. rewrite ?zip_with_nil_r. reflexivity. }
    simpl. f_equal; [|apply IH].
    rewrite clip_Rmax. f_equal. unfold Rdiv. ring.
Qed.

Lemma distortion_spec ind lag f_ λ_1_ λ_2_ v_ μ_ g_ ξ_ lo :
  distortion ind lag f_ λ_1_ λ_2_ v_ μ_ g_ ξ_ lo
  = DistortionSpec.M (DistortionSpec.sign lo) g_ ind lag f_ v_ μ_ λ_1_ λ_2_ ξ_.
Proof.
  rewrite <- clip0_inner_rows. unfold distortion, DistortionSpec.sign.
  destruct lo; do 3 f_equal.
  - rewrite <- (map_id g_) at 1. apply map_ext. intros; ring.
  - apply map_ext. intros; ring.
Qed.

Lemma clip0_nonneg (a : list R) : Forall (fun m => 0 <= m) (Np.clip0 a).
Proof.
  unfold Np.clip0. apply Forall_map, Forall_forall. intros e _.
  destruct (Rlt_dec e 0); lra.
Qed.

Lemma distortion_nonneg ind lag f_ λ_1_ λ_2_ v_ μ_ g_ ξ_ lo :
  Forall (fun m => 0 <= m) (distortion ind lag f_ λ_1_ λ_2_ v_ μ_ g_ ξ_ lo).
Proof. unfold distortion. destruct lo; apply clip0_nonneg. Qed.

Section Distortion.

Variable minimize : Scipy.minimize_t.
Variable linalg_solve : linalg_solve_t.

(** C2.  When [iterate] returns, the distortion [M] of its result is
    [0.5 − (±g + next_indicator·v − lag_indicator·v − μ + f·λ_1
            + lag_indicator·λ_2)/ξ] row by row, with [+g] in lower-bound
    mode and [−g] in upper-bound mode and every negative value replaced
    by [0], for the [v], [μ], [λ_1], [λ_2] of the result; hence every
    component of [M] is nonnegative. *)
Theorem iterate_distortion (steps : nat) (s : solver) (ξ_ : R) (lo : bool)
  (g_ : list R) (res : result) (s' : solver) :
  0 < ξ_ -> g s = Some g_ ->
  iterate minimize linalg_solve steps s ξ_ lo = Return res s' ->
  M res
  = DistortionSpec.M (DistortionSpec.sign lo) g_ (pd_indicator s)
      (pd_lag_indicator s) (f s) (r_v res) (r_μ res) (r_λ_1 res) (r_λ_2 res)
      ξ_
  /\ Forall (fun m => 0 <= m) (M res).
Proof.
  intros _ Hg H.
  destruct (iterate_Return _ _ _ _ _ _ _ _ H)
    as (g' & s1 & l1 & Hg' & _ & _ & _ & _ & HM & _).
  assert (g' = g_) by congruence. subst g'.
  rewrite HM. split.
  - apply distortion_spec.
  - apply distortion_nonneg.
Qed.

(** C7.  With [g] unset, [iterate] raises at once, whatever the number
    of passes granted: the outcome is the exception, no result, and the
    object as it was before the call ([ξ], the mode, [v], [μ] and what has
    been printed included). *)
Theorem iterate_without_g (steps : nat) (s : solver) (ξ_ : R) (lo : bool) :
  g s = None ->
  iterate minimize linalg_solve steps s ξ_ lo
  = Raise (Exception "Sorry, please define self.g first!") s.
Proof. intros H. unfold iterate. now rewrite H. Qed.

End Distortion.

(** *** Row sums of the transition matrices *)

Lemma length_zip_with {A B C} (op : A -> B -> C) a b :
  length (Np.zip_with op a b) = Nat.min (length a) (length b).
Proof.
  revert b. induction a as [|x a IH]; intros [|y b]; simpl; auto.
Qed.

Lemma length_inner ind lag f_ λ_1_ λ_2_ v_ μ_ gs :
  (length (inner ind lag f_ λ_1_ λ_2_ v_ μ_ gs) <= length ind)%nat.
Proof.
  unfold inner, Np.vadd, Np.vsub, Np.bmatvec, Np.matvec, Np.astype_float.
  rewrite !length_zip_with, !length_map, !length_zip_with, !length_map. lia.
Qed.

Lemma length_distortion ind lag f_ λ_1_ λ_2_ v_ μ_ g_ ξ_ lo :
  (length (distortion ind lag f_ λ_1_ λ_2_ v_ μ_ g_ ξ_ lo) <= length ind)%nat.
Proof.
  unfold distortion, Np.clip0.
  destruct lo; rewrite !length_map; apply length_inner.
Qed.

(** On rows that are one-hot, the three columns of the next-period
    indicator split every weighted sum. *)
Lemma one_hot_split (sel : list bool) :
  forall (M_ : list R) (ind : list (list bool)),
    (length M_ <= length ind)%nat -> Forall one_hot ind ->
    let w j := Np.vmul (Np.select sel M_)
                 (map Np.b2r (Np.bcol j (Np.select sel ind))) in
    Np.sum (w 0%nat) + Np.sum (w 1%nat) + Np.sum (w 2%nat)
    = Np.sum (Np.select sel M_)
    /\ length (w 0%nat) = length (Np.select sel M_)
    /\ length (w 1%nat) = length (Np.select sel M_)
    /\ length (w 2%nat) = length (Np.select sel M_).
Proof.
  induction sel as [|b sel IH]; intros M_ ind Hlen Hoh; cbv zeta.
  - simpl. repeat split; lra.
  - destruct M_ as [|m M_].
    { simpl. repeat split; auto; lra. }
    destruct ind as [|row ind]; [simpl in Hlen; lia|].
    inversion Hoh as [|? ? Hrow Hrest]; subst.
    simpl in Hlen. apply le_S_n in Hlen.
    specialize (IH M_ ind Hlen Hrest). cbv zeta in IH.
    destruct IH as (IH0 & IH1 & IH2 & IH3).
    destruct b; [|simpl; auto].
    unfold Np.vmul in *.
    destruct Hrow as [->|[->| ->]]; simpl; rewrite IH1, IH2, IH3;
      (split; [|auto]); unfold Np.b2r in *; lra.
Qed.

Lemma select_one_hot (sel : list bool) (ind : list (list bool)) :
  Forall one_hot ind -> Forall one_hot (Np.select sel ind).
Proof.
  revert ind. induction sel as [|b sel IH]; intros [|row ind] H;
    simpl; auto.
  inversion H; subst. destruct b; auto.
Qed.

Lemma sum_pure_one_hot (rows : list (list bool)) :
  Forall one_hot rows ->
  let c j := map Np.b2r (Np.bcol j rows) in
  Np.sum (c 0%nat) + Np.sum (c 1%nat) + Np.sum (c 2%nat) = INR (length rows).
Proof.
  induction 1 as [|row rows Hrow _ IH]; cbv zeta in *.
  - simpl. lra.
  - cbn [length]. rewrite S_INR. unfold Np.bcol in *.
    cbn [map Np.sum].
    destruct Hrow as [->|[->| ->]]; cbn [nth Np.b2r]; lra.
Qed.

Lemma P_tilde_row_sums ind lag M_ :
  (length M_ <= length ind)%nat -> Forall one_hot ind ->
  map Np.nr_sum (P_tilde_of ind lag M_) = E_M_cond_of lag M_.
Proof.
  intros Hlen Hoh. unfold P_tilde_of, E_M_cond_of, per_state.
  rewrite map_map. apply map_ext. intros i.
  unfold next_in. cbn [seq n_states map Nat.sub].
  destruct (one_hot_split (rows_of lag i) M_ ind Hlen Hoh)
    as (Hs & H0 & H1 & H2).
  unfold Np.mean.
  destruct (Np.select (rows_of lag i) M_) as [|m sel] eqn:E.
  - apply length_zero_iff_nil in H0, H1, H2. rewrite H0, H1, H2.
    reflexivity.
  - destruct (Np.vmul (m :: sel) _) as [|a0 w0] eqn:E0 in H0 |- *;
      [discriminate|].
    destruct (Np.vmul (m :: sel) _) as [|a1 w1] eqn:E1 in H1 |- *;
      [discriminate|].
    destruct (Np.vmul (m :: sel) _) as [|a2 w2] eqn:E2 in H2 |- *;
      [discriminate|].
    rewrite E0, E1, E2 in Hs.
    cbn [Np.nr_sum Np.nr_add Np.nr_lift2]. rewrite H0, H1, H2. f_equal.
    rewrite <- Hs. field.
    apply not_0_INR. discriminate.
Qed.

Lemma P_row_sums ind lag i :
  Forall one_hot ind -> Np.select (rows_of lag i) ind <> [] ->
  Np.nr_sum (per_state (fun j => Np.mean (next_in ind lag i j))) = Some 1.
Proof.
  intros Hoh Hne. unfold per_state, next_in. cbn [seq n_states map Nat.sub].
  pose proof (sum_pure_one_hot _ (select_one_hot (rows_of lag i) ind Hoh))
    as Hs. cbv zeta in Hs.
  destruct (Np.select (rows_of lag i) ind) as [|row rows]; [congruence|].
  unfold Np.mean, Np.bcol in *. cbn [map] in *.
  cbn [Np.nr_sum Np.nr_add Np.nr_lift2]. f_equal.
  cbn [length] in *. rewrite !length_map.
  assert (Hn : INR (S (length rows)) <> 0) by (apply not_0_INR; discriminate).
  match goal with
  | |- ?a / ?n + (?b / ?n + (?c / ?n + 0)) = 1 =>
      transitivity ((a + b + c) / n); [field; exact Hn|]
  end.
  rewrite Hs. field. exact Hn.
Qed.

(** *** Where the relative entropy is a real number *)

Lemma nr_sum_Some (l : list Np.nr) (r : R) :
  Np.nr_sum l = Some r -> Forall (fun e => e <> None) l.
Proof.
  revert r. induction l as [|[a|] l IH]; intros r H; simpl in H.
  - constructor.
  - constructor; [discriminate|].
    destruct (Np.nr_sum l) as [b|]; [eapply IH; eauto | discriminate].
  - discriminate.
Qed.

Lemma nr_mean_Some (l : list Np.nr) (r : R) :
  Np.nr_mean l = Some r -> l <> [] /\ Forall (fun e => e <> None) l.
Proof.
  destruct l as [|a l]; [discriminate|]. unfold Np.nr_mean.
  destruct (Np.nr_sum (a :: l)) as [t|] eqn:E; [|discriminate].
  intros _. split; [discriminate | eapply nr_sum_Some; eauto].
Qed.

Lemma xlogx_Some (m : R) :
  Np.nr_mul (Some m) (Np.log m) <> None <-> 0 < m.
Proof.
  unfold Np.log. destruct (Rlt_dec 0 m); simpl; split; intros; congruence.
Qed.

Lemma RE_cond_entry_Some (sel : list R) (r : R) :
  Np.nr_mean (map (fun m => Np.nr_mul (Some m) (Np.log m)) sel) = Some r ->
  sel <> [] /\ Forall (fun m => 0 < m) sel.
Proof.
  intros H. apply nr_mean_Some in H. destruct H as [Hne Hall]. split.
  - intros ->. now apply Hne.
  - rewrite Forall_map in Hall. eapply Forall_impl; [|exact Hall].
    intros m Hm. now apply xlogx_Some.
Qed.

Lemma nr_dot3_Some (c1 c2 c3 p1 p2 p3 : Np.nr) (r : R) :
  Np.nr_dot [c1; c2; c3] [p1; p2; p3] = Some r ->
  c1 <> None /\ c2 <> None /\ c3 <> None.
Proof.
  destruct c1, c2, c3, p1, p2, p3; simpl; intros H;
    try discriminate; repeat split; discriminate.
Qed.

Lemma nth_per_state {A} (h : nat -> A) (d : A) (i : nat) :
  (1 <= i <= n_states)%nat -> nth (i - 1) (per_state h) d = h i.
Proof.
  unfold per_state, n_states. intros Hi.
  destruct i as [|[|[|[|i]]]]; try lia; reflexivity.
Qed.


Section Derived.

Variable minimize : Scipy.minimize_t.
Variable linalg_solve : linalg_solve_t.

Lemma stationary_length (Pm : list (list Np.nr)) (x : list Np.nr) :
  (forall A B y, linalg_solve A B = Some y -> length y = length B) ->
  stationary linalg_solve Pm = Some x ->
  exists p1 p2 p3, x = [p1; p2; p3].
Proof.
  intros Hshape H. unfold stationary in H. apply Hshape in H.
  cbn in H. destruct x as [|p1 [|p2 [|p3 [|]]]]; try discriminate.
  now exists p1, p2, p3.
Qed.

(** C5, as amended.  When [iterate] returns and the rows of the
    next-period indicator are one-hot, row [i] of the distorted transition
    matrix sums to [E_M_cond[i]], the mean of [M] over the rows of state
    [i], and every row of the empirical transition matrix whose state has
    an observation sums to exactly [1]. *)
Theorem transition_row_sums (steps : nat) (s : solver) (ξ_ : R) (lo : bool)
  (res : result) (s' : solver) :
  Forall one_hot (pd_indicator s) ->
  iterate minimize linalg_solve steps s ξ_ lo = Return res s' ->
  map Np.nr_sum (P_tilde res) = E_M_cond res
  /\ forall i, (1 <= i <= n_states)%nat ->
       Np.select (rows_of (pd_lag_indicator s) i) (pd_indicator s) <> [] ->
       Np.nr_sum (nth (i - 1) (P res) []) = Some 1.
Proof.
  intros Hoh H.
  destruct (iterate_Return _ _ _ _ _ _ _ _ H)
    as (g_ & s1 & l1 & _ & _ & _ & _ & _ & HM & HE & HPt & HP & _).
  split.
  - rewrite HPt, HE. apply P_tilde_row_sums; [|exact Hoh].
    rewrite HM. apply length_distortion.
  - intros i Hi Hne. rewrite HP. unfold P_of.
    rewrite nth_per_state by exact Hi. now apply P_row_sums.
Qed.

Lemma RE_defined_positive (steps : nat) (s : solver) (ξ_ : R)
  (lo : bool) (res : result) (s' : solver) (r : R) (i : nat) :
  (forall A B y, linalg_solve A B = Some y -> length y = length B) ->
  iterate minimize linalg_solve steps s ξ_ lo = Return res s' ->
  RE res = Some r -> (1 <= i <= n_states)%nat ->
  Forall (fun m => 0 < m)
    (Np.select (rows_of (pd_lag_indicator s) i) (M res)).
Proof.
  intros Hshape H Hr Hi.
  destruct (iterate_Return _ _ _ _ _ _ _ _ H)
    as (g_ & s1 & l1 & _ & _ & Hfin & F & _ & _ & _ & _ & _ & HRc & HR & _).
  destruct (finish_Return _ _ _ _ _ Hfin)
    as (g0 & lo0 & _ & _ & _ & _ & _ & _ & _ & _ & _ & _ & _ & _ & _ & _ & _
        & Hst & _).
  destruct (stationary_length _ _ Hshape Hst) as (p1 & p2 & p3 & Hπ).
  rewrite Hπ in HR. unfold RE_cond_of, per_state in HRc.
  cbn [seq n_states map] in HRc. rewrite HRc, Hr in HR.
  symmetry in HR. apply nr_dot3_Some in HR. destruct HR as (H1 & H2 & H3).
  unfold n_states in Hi.
  assert (Hc : i = 1%nat \/ i = 2%nat \/ i = 3%nat) by lia.
  destruct Hc as [->|[->| ->]];
    [destruct (Np.nr_mean _) as [t|] eqn:E in H1
    |destruct (Np.nr_mean _) as [t|] eqn:E in H2
    |destruct (Np.nr_mean _) as [t|] eqn:E in H3];
    try congruence; apply RE_cond_entry_Some in E; tauto.
Qed.

Lemma RE_zero_undefined (steps : nat) (s : solver) (ξ_ : R)
  (lo : bool) (res : result) (s' : solver) (i : nat) :
  (forall A B y, linalg_solve A B = Some y -> length y = length B) ->
  iterate minimize linalg_solve steps s ξ_ lo = Return res s' ->
  (1 <= i <= n_states)%nat ->
  In 0 (Np.select (rows_of (pd_lag_indicator s) i) (M res)) ->
  nth (i - 1) (RE_cond res) (Some 0) = None /\ RE res = None.
Proof.
  intros Hshape H Hi Hin. split.
  - destruct (iterate_Return _ _ _ _ _ _ _ _ H)
      as (g_ & s1 & l1 & _ & _ & _ & _ & _ & _ & _ & _ & _ & HRc & _).
    rewrite HRc. unfold RE_cond_of. rewrite nth_per_state by exact Hi.
    match goal with |- ?t = None => destruct t as [t0|] eqn:E end;
      [|reflexivity].
    apply RE_cond_entry_Some in E. destruct E as [_ E].
    rewrite Forall_forall in E. apply E in Hin. lra.
  - destruct (RE res) as [r|] eqn:Er; [|reflexivity].
    pose proof (RE_defined_positive _ _ _ _ _ _ r i Hshape H Er Hi) as Hpos.
    rewrite Forall_forall in Hpos. apply Hpos in Hin. lra.
Qed.

(** C10.  When [iterate] returns (and [np.linalg.solve] returns a vector
    of the shape of its right-hand side): if [M] is exactly [0] on some row
    of a state, that state's conditional relative entropy is not a real
    number, and neither is the aggregate [RE]; and whenever [RE] is a real
    number, [M] is strictly positive on every row of every state. *)
Theorem entropy_needs_positive_M (steps : nat) (s : solver) (ξ_ : R)
  (lo : bool) (res : result) (s' : solver) :
  (forall A B y, linalg_solve A B = Some y -> length y = length B) ->
  iterate minimize linalg_solve steps s ξ_ lo = Return res s' ->
  (forall i, (1 <= i <= n_states)%nat ->
     In 0 (Np.select (rows_of (pd_lag_indicator s) i) (M res)) ->
     nth (i - 1) (RE_cond res) (Some 0) = None /\ RE res = None)
  /\ (forall r, RE res = Some r ->
      forall i, (1 <= i <= n_states)%nat ->
        Forall (fun m => 0 < m)
          (Np.select (rows_of (pd_lag_indicator s) i) (M res))).
Proof.
  intros Hshape H. split.
  - intros i Hi Hin. eapply RE_zero_undefined; eauto.
  - intros r Hr i Hi. eapply RE_defined_positive; eauto.
Qed.


End Derived.

(** ** The calibrator *)

Section Calibrator.

Variable minimize : Scipy.minimize_t.
Variable linalg_solve : linalg_solve_t.

Lemma loop_body_stdout s l : ends_with_array (fst (loop_body minimize s l)).
Proof.
  unfold loop_body, ends_with_array.
  destruct (count l =? 0)%nat;
    match goal with
    | |- context [fold_left ?h ?ks ?p] => destruct (fold_left h ks p)
    end; cbn; eauto.
Qed.

Lemma iterate_stdout steps s ξ_ lo res s' :
  iterate minimize linalg_solve steps s ξ_ lo = Return res s' ->
  ends_with_array s'.
Proof.
  intros H.
  destruct (iterate_Return _ _ _ _ _ _ _ _ H)
    as (g_ & s1 & l1 & _ & Hw & Hfin & _).
  apply (while_loop_inv minimize
           (fun s l => count l = 0%nat \/ ends_with_array s)) in Hw.
  - destruct Hw as [Hw _].
    destruct (finish_Return _ _ _ _ _ Hfin)
      as (g0 & lo0 & _ & _ & _ & _ & _ & _ & _ & _ & Hc & R).
    destruct Hw as [Hw|Hw]; [congruence|].
    repeat match type of R with _ /\ _ => destruct R as [_ R] end.
    subst s'. destruct lo0; [|exact Hw].
    destruct Hw as (pre & a & E). unfold ends_with_array. cbn. eauto.
  - intros s0 l0 _ _. right. apply loop_body_stdout.
  - now left.
Qed.

Lemma not_both (s : solver) :
  ends_with_array s -> ends_with_max_iter s -> False.
Proof.
  intros (p1 & a & E1) (p2 & e & E2). rewrite E1 in E2.
  apply app_inj_tail in E2. destruct E2 as [_ E2]. discriminate.
Qed.



(** C4.  [find_ξ] takes [min_RE] from [iterate] at [ξ = 100] and starts
    the bisection at [ξ = 1] in the bracket [[0, 100]].  A pass runs
    [iterate] at the current [ξ] and, with [error = RE/min_RE − x], returns
    that [ξ] when [|error| < tol]; otherwise it goes on with the upper
    bound at [ξ] and the midpoint with the lower bound when [error < 0],
    else with the lower bound at [ξ] and the midpoint with the upper
    bound. *)
Theorem find_xi_bisection (steps : nat) (s : solver) (x : R) (lo : bool)
  (tol_ : R) (k : nat) (ref : result) (s_ref : solver) :
  iterate minimize linalg_solve steps s 100 lo = Return ref s_ref ->
  find_ξ minimize linalg_solve steps s x lo tol_ (S k)
  = bisect minimize linalg_solve steps (S k) s_ref
      {| bξ := 1; lower_bound := 0; upper_bound := 100; bcount := 0 |}
      (RE ref) x lo tol_ (S k)
  /\ forall (n : nat) (s1 : solver) (b : bracket) (res : result)
       (s2 : solver),
       iterate minimize linalg_solve steps s1 (bξ b) lo = Return res s2 ->
       let e := BisectionSpec.error (RE res) (RE ref) x in
       exists next,
         BisectionSpec.step e tol_ (bξ b) (lower_bound b) (upper_bound b) next
         /\ bisect minimize linalg_solve steps (S n) s1 b (RE ref) x lo tol_
              (S k)
            = match next with
              | None => Return (bξ b) s2
              | Some (ξ', lb', ub') =>
                  bisect minimize linalg_solve steps n
                    (if (bcount b + 1 =? S k)%nat
                     then print (print_max_iter e) s2 else s2)
                    {| bξ := ξ'; lower_bound := lb'; upper_bound := ub';
                       bcount := (bcount b + 1)%nat |}
                    (RE ref) x lo tol_ (S k)
              end.
Proof.
  intros Href. split.
  - unfold find_ξ. now rewrite Href.
  - intros n s1 b res s2 Hit e.
    assert (He : Np.nr_sub (Np.nr_div (RE res) (RE ref)) (Some x) = e).
    { unfold e, BisectionSpec.error, Np.nr_div.
      destruct (RE res), (RE ref); try reflexivity.
      destruct (Req_dec_T _ _); reflexivity. }
    cbn [bisect]. rewrite Hit. cbv zeta. rewrite He.
    destruct (Np.nr_abs_lt e tol_) eqn:Ea.
    + exists None. split; [|reflexivity]. apply BisectionSpec.stop.
      unfold Np.nr_abs_lt in Ea. destruct e as [r0|]; [|discriminate].
      exists r0. destruct (Rlt_dec _ _); [auto|discriminate].
    + assert (Hnw : ~ BisectionSpec.within e tol_).
      { intros (r0 & -> & Hr). unfold Np.nr_abs_lt in Ea.
        destruct (Rlt_dec _ _); [discriminate|tauto]. }
      destruct (Np.nr_neg e) eqn:En.
      * exists (Some ((lower_bound b + bξ b) / 2, lower_bound b, bξ b)).
        split; [|reflexivity]. apply BisectionSpec.down; [exact Hnw|].
        unfold Np.nr_neg in En. destruct e as [r0|]; [|discriminate].
        exists r0. destruct (Rlt_dec _ _); [auto|discriminate].
      * exists (Some ((bξ b + upper_bound b) / 2, bξ b, upper_bound b)).
        split; [|reflexivity]. apply BisectionSpec.up; [exact Hnw|].
        intros (r0 & -> & Hr). unfold Np.nr_neg in En.
        destruct (Rlt_dec _ _); [discriminate|tauto].
Qed.

End Calibrator.

(** ** Runs on the sample *)

Import Sample.

Ltac same_clip z :=
  repeat match goal with
  | |- context [Rmax 0 ?e] =>
      lazymatch e with
      | z => fail
      | _ => replace e with z by (field; lra)
      end
  end.


Lemma clip0_Rmax (a : list R) : Np.clip0 a = map (Rmax 0) a.
Proof. apply map_ext, clip_Rmax. Qed.


Lemma flat_objective (s : solver) (k : nat) (lo : bool) (ξ_ : R) :
  sampled [0; 0; 0; 0] s -> v s = Some [0; 0; 0] -> state s = Some k ->
  (1 <= k <= 3)%nat -> ξ s = Some ξ_ -> lower s = Some lo -> 0 < ξ_ ->
  _objective s (Np.ones (n_f + 1)) = Some (q ξ_).
Proof.
  intros (H1 & H2 & H3 & H4 & H5 & _) Hv Hk Hr Hξ Hlo Hpos.
  unfold _objective. rewrite Hlo, H5, Hk, Hv, Hξ, H2, H3, H4.
  unfold _objective_numba. rewrite !clip0_Rmax.
  assert (Hc : k = 1%nat \/ k = 2%nat \/ k = 3%nat) by lia.
  destruct Hc as [->|[->| ->]]; destruct lo;
    cbn -[Rplus Rmult Rdiv Ropp Rminus pow INR Rmax];
    same_clip (0.5 - 1 / ξ_); unfold q; f_equal; simpl INR; field.
Qed.

Lemma stalled_min_objective (s : solver) :
  _min_objective stalled s
  = ((- match _objective s (Np.ones (n_f + 1)) with
        | Some y => y
        | None => 0
        end,
      [1; 1; 1; 1], 1),
     print
       (print_message "Maximum number of iterations has been exceeded.")
       (print (print_solver_warning (ξ s) (tol s)) s)).
Proof. reflexivity. Qed.

Lemma flat_solve_state (s : solver) (l : locals) (k : nat) (lo : bool)
  (ξ_ : R) :
  sampled [0; 0; 0; 0] s -> armed ξ_ lo s -> v s = Some [0; 0; 0] ->
  (1 <= k <= 3)%nat -> 0 < ξ_ ->
  exists s',
    solve_state stalled (s, l) k
    = (s',
       {| error := error l; count := count l;
          v_μ := Np.set_item (k - 1) (- q ξ_) (v_μ l);
          λ_1 := Np.set_slice ((k - 1) * n_f) (k * n_f) [1; 1; 1; 1] (λ_1 l);
          λ_2 := Np.set_item (k - 1) 1 (λ_2 l) |})
    /\ sampled [0; 0; 0; 0] s' /\ armed ξ_ lo s' /\ v s' = Some [0; 0; 0].
Proof.
  intros Hs [Hξ Hlo] Hv Hk Hpos.
  rewrite solve_state_eq, stalled_min_objective.
  rewrite (flat_objective (set_state k s) k lo ξ_); auto.
  eexists. split; [reflexivity|]. repeat split; try apply Hs; auto.
Qed.

Lemma Np_max_zeros3 (a b c : R) :
  a = 0 -> b = 0 -> c = 0 -> Np.max (map Rabs [a; b; c]) = 0.
Proof.
  intros -> -> ->. cbn [Np.max map fold_left]. rewrite Rabs_R0.
  now rewrite !(Rmax_left 0 0) by lra.
Qed.

Lemma flat_pass (s : solver) (l : locals) (lo : bool) (ξ_ : R) :
  sampled [0; 0; 0; 0] s -> armed ξ_ lo s -> count l = 0%nat -> 0 < ξ_ ->
  exists s' l',
    loop_body stalled s l = (s', l')
    /\ sampled [0; 0; 0; 0] s' /\ armed ξ_ lo s'
    /\ v s' = Some [0; 0; 0] /\ μ s' = Some (- q ξ_)
    /\ error l' = 0 /\ count l' = 1%nat
    /\ λ_1 l' = Np.ones 12 /\ λ_2 l' = [1; 1; 1].
Proof.
  intros Hs Ha Hc Hpos. unfold loop_body. rewrite Hc.
  cbn [Nat.eqb seq n_states fold_left].
  assert (Hs0 : sampled [0; 0; 0; 0] (set_v (Np.zeros n_states) s))
    by (repeat split; apply Hs).
  assert (Ha0 : armed ξ_ lo (set_v (Np.zeros n_states) s))
    by (split; apply Ha).
  assert (Hv0 : v (set_v (Np.zeros n_states) s) = Some [0; 0; 0])
    by reflexivity.
  assert (K1 : (1 <= 1 <= 3)%nat) by lia.
  assert (K2 : (1 <= 2 <= 3)%nat) by lia.
  assert (K3 : (1 <= 3 <= 3)%nat) by lia.
  match goal with
  | |- context [solve_state _ (?s0, ?l0) 1] =>
      destruct (flat_solve_state s0 l0 1 lo ξ_ Hs0 Ha0 Hv0 K1 Hpos)
        as (s1 & E1 & Hs1 & Ha1 & Hv1); rewrite E1
  end.
  match goal with
  | |- context [solve_state _ (s1, ?l1) 2] =>
      destruct (flat_solve_state s1 l1 2 lo ξ_ Hs1 Ha1 Hv1 K2 Hpos)
        as (s2 & E2 & Hs2 & Ha2 & Hv2); rewrite E2
  end.
  match goal with
  | |- context [solve_state _ (s2, ?l2) 3] =>
      destruct (flat_solve_state s2 l2 3 lo ξ_ Hs2 Ha2 Hv2 K3 Hpos)
        as (s3 & E3 & Hs3 & Ha3 & Hv3); rewrite E3
  end.
  rewrite Hv3.
  cbn -[Rplus Rmult Rdiv Ropp Rminus pow INR Rmax Rabs Np.max q].
  eexists. eexists. split; [reflexivity|].
  cbn -[Rplus Rmult Rdiv Ropp Rminus pow INR Rmax Rabs Np.max q].
  repeat split; try apply Hs3; try apply Ha3.
  - do 2 f_equal; [ring|]. f_equal; [ring|]. f_equal; ring.
  - apply Np_max_zeros3; ring.
Qed.

Lemma while_loop_exit (mz : Scipy.minimize_t) n s l :
  ~ error l > tol s -> while_loop mz n s l = Some (s, l).
Proof.
  intros H. destruct n; [rewrite while_loop_0 | rewrite while_loop_S];
    destruct (Rgt_dec (error l) (tol s)); tauto.
Qed.

Lemma q_ge_1 (ξ_ : R) : 0 < ξ_ -> 1 <= q ξ_.
Proof.
  intros H. unfold q.
  pose proof (pow2_ge_0 (Rmax 0 (0.5 - 1 / ξ_))) as Hp. nra.
Qed.

Lemma m_bounds (ξ_ : R) : 0 < ξ_ -> 0 <= m ξ_ < 0.5.
Proof.
  intros H. pose proof (q_ge_1 ξ_ H) as Hq. unfold m.
  assert (0 < (1 + q ξ_) / ξ_) by (apply Rdiv_lt_0_compat; lra).
  unfold Rmax. destruct (Rle_dec 0 _); lra.
Qed.

Lemma flat_distortion (ξ_ : R) (lo : bool) :
  0 < ξ_ ->
  distortion next_rows lag_rows (repeat (Np.zeros 12) 4) (Np.ones 12)
    [1; 1; 1] [0; 0; 0] (- q ξ_) [0; 0; 0; 0] ξ_ lo
  = [m ξ_; m ξ_; m ξ_; m ξ_].
Proof.
  intros H. unfold distortion. rewrite !clip0_Rmax.
  destruct lo;
    cbn -[Rplus Rmult Rdiv Ropp Rminus pow INR Rmax q];
    same_clip (0.5 - (1 + q ξ_) / ξ_); reflexivity.
Qed.

Lemma flat_stationary_tilde (a : R) :
  a < 2 ->
  exists p1 p2 p3,
    stationary cramer3 (P_tilde_of next_rows lag_rows [a; a; a; a])
    = Some [Some p1; Some p2; Some p3].
Proof.
  intros H. unfold stationary, P_tilde_of, per_state, next_in, rows_of.
  cbn -[Rplus Rmult Rdiv Ropp Rminus pow INR Rmax Req_dec_T].
  match goal with
  | |- context [Req_dec_T ?D 0] =>
      destruct (Req_dec_T D 0) as [E|E]; [exfalso|eauto]
  end.
  simpl INR in E. unfold det3 in E.
  assert (1 - a / 2 = 0) by (rewrite <- E; field). lra.
Qed.

Lemma flat_stationary :
  exists p1 p2 p3,
    stationary cramer3 (P_of next_rows lag_rows)
    = Some [Some p1; Some p2; Some p3].
Proof.
  unfold stationary, P_of, per_state, next_in, rows_of.
  cbn -[Rplus Rmult Rdiv Ropp Rminus pow INR Rmax Req_dec_T].
  match goal with
  | |- context [Req_dec_T ?D 0] =>
      destruct (Req_dec_T D 0) as [E|E]; [exfalso|eauto]
  end.
  simpl INR in E. unfold det3 in E.
  assert (1 / 2 = 0) by (rewrite <- E; field). lra.
Qed.

Lemma flat_iterate (n : nat) (s : solver) (lo : bool) (ξ_ : R) :
  sampled [0; 0; 0; 0] s -> 0 < ξ_ ->
  exists res s',
    iterate stalled cramer3 (S n) s ξ_ lo = Return res s'
    /\ M res = [m ξ_; m ξ_; m ξ_; m ξ_]
    /\ sampled [0; 0; 0; 0] s'.
Proof.
  intros Hs Hpos. unfold iterate.
  destruct Hs as (D1 & D2 & D3 & D4 & D5 & D6). rewrite D5.
  assert (Hs0 : sampled [0; 0; 0; 0] (set_ξ_lower ξ_ lo s))
    by (repeat split; assumption).
  assert (Ha0 : armed ξ_ lo (set_ξ_lower ξ_ lo s)) by (split; reflexivity).
  rewrite while_loop_S.
  destruct (Rgt_dec _ _) as [_|Hn];
    [|exfalso; apply Hn; cbn [error tol set_ξ_lower]; rewrite D6; lra].
  destruct (flat_pass (set_ξ_lower ξ_ lo s)
              {| error := 1; count := 0; v_μ := []; λ_1 := []; λ_2 := [] |}
              lo ξ_ Hs0 Ha0 eq_refl Hpos)
    as (s1 & l1 & E & Hs1 & [Hξ Hlo] & Hv & Hμ & He & Hc & Hλ1 & Hλ2).
  rewrite E. cbn [fst snd].
  destruct Hs1 as (E1 & E2 & E3 & E4 & E5 & E6).
  rewrite while_loop_exit by (rewrite He, E6; lra).
  unfold finish. rewrite Hc, Hv, Hμ, E5, Hξ, Hlo. cbv zeta.
  rewrite E1, E3, E4, Hλ1, Hλ2, flat_distortion by exact Hpos.
  destruct (m_bounds ξ_ Hpos) as [Hm0 Hm1].
  destruct (flat_stationary_tilde (m ξ_)) as (p1 & p2 & p3 & Et); [lra|].
  destruct flat_stationary as (r1 & r2 & r3 & Ep).
  rewrite Et, Ep.
  eexists. eexists. split; [reflexivity|]. split; [reflexivity|].
  destruct lo; repeat split; assumption.
Qed.

Lemma cramer3_shape (A : list (list Np.nr)) (B : list R) (y : list Np.nr) :
  cramer3 A B = Some y -> length y = length B.
Proof.
  unfold cramer3.
  repeat match goal with
  | |- context [match ?t with _ => _ end] =>
      is_var t; destruct t
  end;
  cbv zeta;
  try match goal with
      | |- context [Req_dec_T ?D 0] =>
          destruct (Req_dec_T D 0); [discriminate|]
      end;
  intros H; inversion H; subst; cbn [length]; rewrite ?length_map; reflexivity.
Qed.


Lemma m_1 : m 1 = 0.
Proof.
  unfold m, q.
  replace (Rmax 0 (0.5 - 1 / 1)) with 0
    by (unfold Rmax; destruct (Rle_dec 0 _); lra).
  unfold Rmax. destruct (Rle_dec 0 _); lra.
Qed.

Lemma m_100 : 0 < m 100.
Proof.
  unfold m, q.
  replace (Rmax 0 (0.5 - 1 / 100)) with 0.49
    by (unfold Rmax; destruct (Rle_dec 0 _); lra).
  unfold Rmax. destruct (Rle_dec 0 _); lra.
Qed.







Lemma flat_sampled : sampled [0; 0; 0; 0] flat.
Proof. repeat split. Qed.

Lemma next_rows_one_hot : Forall one_hot next_rows.
Proof.
  unfold next_rows, s1, s2, s3, one_hot. repeat constructor; tauto.
Qed.

(** At [ξ = 1] the distortion of the flat sample is zero on every row, so
    the relative entropy is not a number. *)
Lemma flat_RE_at_1 (n : nat) (s : solver) (lo : bool) (res : result)
  (s' : solver) :
  sampled [0; 0; 0; 0] s ->
  iterate stalled cramer3 (S n) s 1 lo = Return res s' ->
  M res = [0; 0; 0; 0] /\ RE res = None.
Proof.
  intros Hs H.
  destruct (flat_iterate n s lo 1 Hs) as (res0 & s0 & E & HM & _); [lra|].
  rewrite E in H. inversion H; subst res0 s0. rewrite m_1 in HM.
  split; [exact HM|].
  apply (RE_zero_undefined _ _ _ _ _ _ _ _ 1%nat cramer3_shape E).
  - unfold n_states. lia.
  - destruct Hs as (_ & _ & -> & _). rewrite HM. cbn. auto.
Qed.


(** C5, as stated, fails: on the flat sample at [ξ = 1], with an optimizer
    that reports failure at its starting point, [iterate] returns and the
    rows of the distorted transition matrix sum to [0]. *)
Lemma transition_rows_counterexample :
  ~ (forall res s',
       iterate stalled cramer3 1 flat 1 true = Return res s' ->
       row_stochastic 1e-6 (P res) /\ row_stochastic 1e-6 (P_tilde res)).
Proof.
  intros Hclaim.
  destruct (flat_iterate 0 flat true 1 flat_sampled) as (res & s' & E & _);
    [lra|].
  destruct (Hclaim res s' E) as [_ Hrow].
  destruct (flat_RE_at_1 0 flat true res s' flat_sampled E) as [HM _].
  destruct (iterate_Return _ _ _ _ _ _ _ _ E)
    as (g_ & s0 & l0 & _ & _ & _ & _ & _ & _ & _ & HPt & _).
  rewrite HPt, HM in Hrow. cbn [pd_indicator pd_lag_indicator flat data] in Hrow.
  unfold row_stochastic, P_tilde_of, per_state in Hrow.
  cbn [seq n_states map] in Hrow.
  inversion Hrow as [|row rest (t & Ht & Hb) _]; subst.
  cbn -[Rplus Rmult Rdiv Ropp Rminus INR Rabs] in Ht.
  inversion Ht; subst t. simpl INR in Hb.
  unfold Rabs in Hb. destruct (Rcase_abs _); lra.
Qed.


(** At [ξ = 100] the distortion of the flat sample is positive on every
    row, and the relative entropy is a number. *)
Lemma flat_RE_at_100 (n : nat) (s : solver) (lo : bool) (res : result)
  (s' : solver) :
  sampled [0; 0; 0; 0] s ->
  iterate stalled cramer3 (S n) s 100 lo = Return res s' ->
  exists r, RE res = Some r.
Proof.
  intros Hs H.
  destruct (flat_iterate n s lo 100 Hs) as (res0 & s0 & E & HM & _); [lra|].
  rewrite E in H. inversion H; subst res0 s0.
  destruct (iterate_Return _ _ _ _ _ _ _ _ E)
    as (g_ & s1 & l1 & _ & _ & Hfin & _ & _ & _ & _ & HPt & _ & HRc & HR & _).
  destruct (finish_Return _ _ _ _ _ Hfin)
    as (g0 & lo0 & _ & _ & _ & _ & _ & _ & _ & _ & _ & _ & _ & _ & _ & _ & _
        & Hst & _).
  destruct Hs as (D1 & _ & D3 & _).
  rewrite HPt, D1, D3, HM in Hst.
  pose proof (m_bounds 100) as Hb.
  destruct (flat_stationary_tilde (m 100)) as (p1 & p2 & p3 & Et); [lra|].
  rewrite Et in Hst. inversion Hst as [Hπ].
  rewrite HR, HRc, <- Hπ, D3, HM.
  unfold RE_cond_of, per_state, rows_of, Np.log.
  pose proof m_100 as Hm.
  cbn -[Rplus Rmult Rdiv Ropp Rminus INR ln m Rlt_dec].
  destruct (Rlt_dec 0 (m 100)); [|contradiction].
  cbn -[Rplus Rmult Rdiv Ropp Rminus INR ln m]. eauto.
Qed.

(** ** Instances *)

Lemma objective_numba_spec_witness :
  (1 <= 3 <= 3)%nat /\ 0 < 1 /\ length (Np.ones 5) = (4 + 1)%nat
  /\ _objective_numba (f flat) [0; 0; 0; 0] lag_rows
       (Np.astype_float next_rows) 3 4 [0; 0; 0] 1 (Np.ones 5)
     = ObjectiveSpec.objective (f flat) [0; 0; 0; 0] lag_rows
         (Np.astype_float next_rows) 3 4 [0; 0; 0] 1 (Np.ones 5).
Proof.
  split; [lia|]. split; [lra|]. split; [reflexivity|].
  apply objective_numba_spec; [lia | lra | reflexivity].
Defined.

Lemma iterate_distortion_witness :
  exists res s',
    0 < 1 /\ g flat = Some [0; 0; 0; 0]
    /\ iterate stalled cramer3 1 flat 1 true = Return res s'
    /\ M res
       = DistortionSpec.M (DistortionSpec.sign true) [0; 0; 0; 0]
           (pd_indicator flat) (pd_lag_indicator flat) (f flat) (r_v res)
           (r_μ res) (r_λ_1 res) (r_λ_2 res) 1
    /\ Forall (fun m => 0 <= m) (M res).
Proof.
  destruct (flat_iterate 0 flat true 1 flat_sampled) as (res & s' & E & _);
    [lra|].
  exists res, s'. split; [lra|]. split; [reflexivity|]. split; [exact E|].
  apply (iterate_distortion stalled cramer3 1 flat 1 true [0; 0; 0; 0] res s');
    [lra | reflexivity | exact E].
Defined.


Lemma find_xi_bisection_witness :
  exists ref s_ref,
    iterate stalled cramer3 1 flat 100 true = Return ref s_ref
    /\ find_ξ stalled cramer3 1 flat 0.5 true 1e-7 1
       = bisect stalled cramer3 1 1 s_ref
           {| bξ := 1; lower_bound := 0; upper_bound := 100; bcount := 0 |}
           (RE ref) 0.5 true 1e-7 1.
Proof.
  destruct (flat_iterate 0 flat true 100 flat_sampled) as (ref & s1 & E & _);
    [lra|].
  exists ref, s1. split; [exact E|].
  apply (find_xi_bisection stalled cramer3 1 flat 0.5 true 1e-7 0 ref s1 E).
Defined.

Lemma transition_row_sums_witness :
  exists res s',
    Forall one_hot (pd_indicator flat)
    /\ iterate stalled cramer3 1 flat 1 true = Return res s'
    /\ map Np.nr_sum (P_tilde res) = E_M_cond res.
Proof.
  destruct (flat_iterate 0 flat true 1 flat_sampled) as (res & s' & E & _);
    [lra|].
  exists res, s'. split; [exact next_rows_one_hot|]. split; [exact E|].
  apply (transition_row_sums stalled cramer3 1 flat 1 true res s'
           next_rows_one_hot E).
Defined.


Lemma iterate_without_g_witness :
  g (data None) = None
  /\ iterate stalled cramer3 0 (data None) 1 true
     = Raise (Exception "Sorry, please define self.g first!") (data None).
Proof.
  split; [reflexivity|].
  apply (iterate_without_g stalled cramer3 0 (data None) 1 true eq_refl).
Defined.


Lemma entropy_needs_positive_M_witness :
  exists res s' res' s'',
    (forall A B y, cramer3 A B = Some y -> length y = length B)
    /\ iterate stalled cramer3 1 flat 1 true = Return res s'
    /\ RE res = None
    /\ iterate stalled cramer3 1 flat 100 true = Return res' s''
    /\ Forall (fun e => 0 < e)
         (Np.select (rows_of (pd_lag_indicator flat) 3) (M res')).
Proof.
  destruct (flat_iterate 0 flat true 1 flat_sampled)
    as (res & s' & E & HM & _); [lra|].
  destruct (flat_iterate 0 flat true 100 flat_sampled)
    as (res' & s'' & E' & _); [lra|].
  destruct (flat_RE_at_100 0 flat true res' s'' flat_sampled E') as [r Hr].
  exists res, s', res', s''.
  split; [exact cramer3_shape|]. split; [exact E|].
  destruct (entropy_needs_positive_M stalled cramer3 1 flat 1 true res s'
              cramer3_shape E) as [Hzero _].
  destruct (entropy_needs_positive_M stalled cramer3 1 flat 100 true res' s''
              cramer3_shape E') as [_ Hpos].
  split; [|split; [exact E'|]].
  - apply (Hzero 1%nat); [unfold n_states; lia|].
    rewrite HM, m_1. cbn. auto.
  - apply (Hpos r Hr 3%nat). unfold n_states. lia.
Defined.

(** * Further properties *)

(** ** The constructor *)

Lemma rows_by_index {A} (d : A) (l : list A) :
  map (fun j => nth j l d) (seq 0 (length l)) = l.
Proof.
  induction l as [|x l IH]; [reflexivity|].
  cbn [length seq map nth]. f_equal.
  rewrite <- seq_shift, map_map. exact IH.
Qed.

Lemma transpose3 {A} (f1 f2 f3 : A -> bool) (l : list A) :
  Np.transpose false (length l) [map f1 l; map f2 l; map f3 l]
  = map (fun x => [f1 x; f2 x; f3 x]) l.
Proof.
  unfold Np.transpose. cbn [map].
  induction l as [|x l IH]; [reflexivity|].
  cbn [length seq map nth]. f_equal.
  rewrite <- seq_shift, map_map. exact IH.
Qed.

Lemma zip_with_map {A B C D} (op : B -> C -> D) (h1 : A -> B) (h2 : A -> C)
  (l : list A) :
  Np.zip_with op (map h1 l) (map h2 l) = map (fun x => op (h1 x) (h2 x)) l.
Proof. induction l; simpl; congruence. Qed.

(** The matrix of regimes before the first and last rows are dropped. *)
Lemma init_indicators (quantile : quantile_t) (data : list csv_row)
  (tol_ : R) (max_iter_ : Z) :
  let full :=
    map (classify (quantile (map d_p data) (1 / 3))
           (quantile (map d_p data) (2 / 3))) (map d_p data) in
  pd_lag_indicator (__init__ quantile data tol_ max_iter_) = removelast full
  /\ pd_indicator (__init__ quantile data tol_ max_iter_) = tl full.
Proof.
  cbv zeta. unfold __init__, le_array, gt_array. cbn [pd_lag_indicator pd_indicator].
  rewrite zip_with_map. rewrite transpose3. split; reflexivity.
Qed.

Lemma classify_one_hot (t1 t2 x : R) : t1 <= t2 -> one_hot (classify t1 t2 x).
Proof.
  intros H. unfold classify, one_hot.
  destruct (Rle_dec x t1), (Rle_dec x t2), (Rgt_dec x t1), (Rgt_dec x t2);
    cbn; try lra; tauto.
Qed.

Lemma Forall_removelast {A} (Q : A -> Prop) (l : list A) :
  Forall Q l -> Forall Q (removelast l).
Proof.
  induction 1 as [|x l Hx Hl IH]; [constructor|].
  cbn [removelast]. destruct l; [constructor|]. constructor; assumption.
Qed.

Lemma Forall_tl {A} (Q : A -> Prop) (l : list A) :
  Forall Q l -> Forall Q (tl l).
Proof. destruct 1; [constructor | assumption]. Qed.



(** X1.  When the first tercile is not above the second, every row of the
    two indicator matrices the constructor stores has exactly one true
    entry: each observation is in exactly one of the three states, today
    and tomorrow. *)
Theorem init_one_hot (quantile : quantile_t) (data : list csv_row)
  (tol_ : R) (max_iter_ : Z) :
  quantile (map d_p data) (1 / 3) <= quantile (map d_p data) (2 / 3) ->
  Forall one_hot (pd_lag_indicator (__init__ quantile data tol_ max_iter_))
  /\ Forall one_hot (pd_indicator (__init__ quantile data tol_ max_iter_)).
Proof.
  intros H.
  destruct (init_indicators quantile data tol_ max_iter_) as [-> ->].
  assert (Hall : Forall one_hot
            (map (classify (quantile (map d_p data) (1 / 3))
                    (quantile (map d_p data) (2 / 3))) (map d_p data))).
  { apply Forall_map, Forall_forall. intros x _. now apply classify_one_hot. }
  split; [now apply Forall_removelast | now apply Forall_tl].
Qed.


Lemma mask_row (b : bool) (x : list R) :
  map (fun e => e * Np.b2r b) x = if b then x else map (fun _ => 0) x.
Proof.
  destruct b; cbn [Np.b2r].
  - rewrite <- (map_id x) at 2. apply map_ext. intros; ring.
  - apply map_ext. intros; ring.
Qed.

Lemma hstack_blocks (k : nat) (Xm : list (list R)) :
  (k < 3)%nat -> Forall (fun r => length r = 4%nat) Xm ->
  forall L : list (list bool),
    Np.cols (k * 4) ((k + 1) * 4)
      (hstack3 (mask_rows Xm (Np.bcol 0 L)) (mask_rows Xm (Np.bcol 1 L))
         (mask_rows Xm (Np.bcol 2 L)))
    = Np.zip_with (fun x l => if nth k l false then x else Np.zeros 4) Xm L.
Proof.
  intros Hk HX. induction HX as [|x Xm Hx _ IH]; intros L.
  - reflexivity.
  - destruct L as [|l L]; [reflexivity|].
    unfold hstack3, mask_rows, Np.cols in *. cbn [Np.bcol map Np.zip_with].
    f_equal; [|apply IH].
    destruct x as [|a [|b [|c [|d [|]]]]]; try discriminate.
    rewrite !mask_row.
    assert (Hc : k = 0%nat \/ k = 1%nat \/ k = 2%nat) by lia.
    destruct Hc as [->|[->| ->]];
      destruct (nth 0 l false), (nth 1 l false), (nth 2 l false);
      reflexivity.
Qed.

Lemma select_masked {A} (k : nat) (d : A) (Xm : list A) :
  forall L : list (list bool),
    Np.select (Np.bcol k L)
      (Np.zip_with (fun x l => if nth k l false then x else d) Xm L)
    = Np.select (Np.bcol k L) Xm.
Proof.
  induction Xm as [|x Xm IH]; intros [|l L]; try reflexivity.
  cbn [Np.bcol map Np.zip_with Np.select].
  destruct (nth k l false); [f_equal|]; apply IH.
Qed.

Lemma init_X_rows (quantile : quantile_t) (data : list csv_row) (tol_ : R)
  (max_iter_ : Z) :
  Forall (fun r => length r = 4%nat)
    (X (__init__ quantile data tol_ max_iter_)).
Proof.
  cbn [X __init__]. apply Forall_removelast, Forall_map, Forall_forall.
  reflexivity.
Qed.

(** X3.  For each of the three states, the block of [n_f] columns of [f]
    that belongs to it holds the row of [X] on the observations in that
    state and zeros on the others; restricted to the observations in the
    state, the block is [X] itself. *)
Theorem init_f_blocks (quantile : quantile_t) (data : list csv_row)
  (tol_ : R) (max_iter_ : Z) (k : nat) :
  (k < n_states)%nat ->
  let s := __init__ quantile data tol_ max_iter_ in
  Np.cols (k * n_f) ((k + 1) * n_f) (f s)
  = Np.zip_with (fun x l => if nth k l false then x else Np.zeros n_f)
      (X s) (pd_lag_indicator s)
  /\ Np.select (Np.bcol k (pd_lag_indicator s))
       (Np.cols (k * n_f) ((k + 1) * n_f) (f s))
     = Np.select (Np.bcol k (pd_lag_indicator s)) (X s).
Proof.
  intros Hk s.
  assert (E : Np.cols (k * n_f) ((k + 1) * n_f) (f s)
              = Np.zip_with
                  (fun x l => if nth k l false then x else Np.zeros n_f)
                  (X s) (pd_lag_indicator s)).
  { apply (hstack_blocks k (X s) Hk (init_X_rows quantile data tol_ max_iter_)). }
  split; [exact E|]. rewrite E. apply select_masked.
Qed.

(** ** More on the objective evaluator *)

Lemma sum_sq_nonneg (x : list R) : 0 <= Np.sum (map (fun e => e ^ 2) x).
Proof.
  induction x as [|e x IH]; cbn [map Np.sum]; [lra|].
  pose proof (pow2_ge_0 e). lra.
Qed.

Lemma mean_sq_nonneg (x : list R) (mval : R) :
  Np.mean (map (fun e => e ^ 2) x) = Some mval -> 0 <= mval.
Proof.
  destruct x as [|e x]; [discriminate|].
  pose proof (sum_sq_nonneg (e :: x)) as Hs.
  unfold Np.mean. cbn [map] in *. intros H.
  match type of H with Some ?e = _ => assert (E : e = mval) by congruence end.
  rewrite <- E. apply Rmult_le_pos; [exact Hs|].
  apply Rlt_le, Rinv_0_lt_compat, lt_0_INR. cbn [length]. lia.
Qed.

(** X4.  For a positive [ξ], wherever the objective is defined its value
    is at least [λ_2], the last entry of [λ]. *)
Theorem objective_lower_bound (f : list (list R)) (g : list R)
  (lag : list (list bool)) (next : list (list R)) (s k : nat) (v : list R)
  (ξ : R) (λ : list R) (r : R) :
  0 < ξ ->
  _objective_numba f g lag next s k v ξ λ = Some r ->
  last λ 0 <= r.
Proof.
  intros Hξ. unfold _objective_numba.
  destruct (Np.mean _) as [mval|] eqn:E; [|discriminate].
  apply mean_sq_nonneg in E. cbn. intros [= <-]. nra.
Qed.




(** *** Convexity in the dual vector *)

Lemma dot_mix (t : R) (x : list R) :
  forall a b : list R, length a = length b ->
    Np.dot x (mix t a b) = t * Np.dot x a + (1 - t) * Np.dot x b.
Proof.
  unfold mix.
  induction x as [|e x IH]; intros [|p a] [|q b] H; try discriminate;
    cbn [Np.dot Np.zip_with]; try ring.
  rewrite IH by (simpl in H; lia). ring.
Qed.

Lemma firstn_mix (t : R) (k : nat) :
  forall a b : list R,
    firstn k (mix t a b) = mix t (firstn k a) (firstn k b).
Proof.
  unfold mix. induction k as [|k IH]; intros [|p a] [|q b]; try reflexivity.
  cbn [firstn Np.zip_with]. f_equal. apply IH.
Qed.

Lemma nth_mix (t : R) (k : nat) :
  forall a b : list R, (k < length a)%nat -> (k < length b)%nat ->
    nth k (mix t a b) 0 = t * nth k a 0 + (1 - t) * nth k b 0.
Proof.
  unfold mix. induction k as [|k IH]; intros [|p a] [|q b] Ha Hb;
    simpl in Ha, Hb; try lia; cbn [nth Np.zip_with]; [reflexivity|].
  apply IH; lia.
Qed.

Lemma length_mix (t : R) (a b : list R) :
  length a = length b -> length (mix t a b) = length a.
Proof. intros H. unfold mix. rewrite length_zip_with. lia. Qed.

(** The square of the positive part is convex. *)
Lemma sq_pos_part_convex (t a b : R) :
  0 <= t <= 1 ->
  Rmax 0 (t * a + (1 - t) * b) * Rmax 0 (t * a + (1 - t) * b)
  <= t * (Rmax 0 a * Rmax 0 a) + (1 - t) * (Rmax 0 b * Rmax 0 b).
Proof.
  intros [Ht0 Ht1].
  pose proof (Rmax_l 0 a) as Hp0. pose proof (Rmax_r 0 a) as Hpa.
  pose proof (Rmax_l 0 b) as Hq0. pose proof (Rmax_r 0 b) as Hqb.
  set (p := Rmax 0 a) in *. set (q := Rmax 0 b) in *.
  assert (H1 : 0 <= t * (p - a)) by (apply Rmult_le_pos; lra).
  assert (H2 : 0 <= (1 - t) * (q - b)) by (apply Rmult_le_pos; lra).
  assert (H3 : 0 <= t * p) by (apply Rmult_le_pos; lra).
  assert (H4 : 0 <= (1 - t) * q) by (apply Rmult_le_pos; lra).
  assert (Hm : 0 <= Rmax 0 (t * a + (1 - t) * b) <= t * p + (1 - t) * q).
  { split; [apply Rmax_l|]. apply Rmax_lub; lra. }
  set (m := Rmax 0 (t * a + (1 - t) * b)) in *. destruct Hm as [Hm0 Hm1].
  assert (H5 : m * m <= (t * p + (1 - t) * q) * (t * p + (1 - t) * q))
    by (apply Rmult_le_compat; lra).
  assert (H6 : 0 <= t * (1 - t) * ((p - q) * (p - q))).
  { apply Rmult_le_pos; [apply Rmult_le_pos; lra|].
    exact (Rle_0_sqr (p - q)). }
  replace (t * (p * p) + (1 - t) * (q * q))
    with ((t * p + (1 - t) * q) * (t * p + (1 - t) * q)
          + t * (1 - t) * ((p - q) * (p - q))) by ring.
  lra.
Qed.

Lemma z_mix (v : list R) (ξ t : R) (a1 b1 : list R) (a2 b2 : R)
  (r : ObjectiveSpec.row) :
  0 < ξ -> length a1 = length b1 ->
  0.5 - (ObjectiveSpec.g_t r + Np.dot (ObjectiveSpec.next_indicator_t r) v
         + Np.dot (ObjectiveSpec.f_block_t r) (mix t a1 b1)
         + (t * a2 + (1 - t) * b2)) / ξ
  = t * (0.5 - (ObjectiveSpec.g_t r
                + Np.dot (ObjectiveSpec.next_indicator_t r) v
                + Np.dot (ObjectiveSpec.f_block_t r) a1 + a2) / ξ)
    + (1 - t) * (0.5 - (ObjectiveSpec.g_t r
                        + Np.dot (ObjectiveSpec.next_indicator_t r) v
                        + Np.dot (ObjectiveSpec.f_block_t r) b1 + b2) / ξ).
Proof. intros Hξ Hl. rewrite dot_mix by exact Hl. field. lra. Qed.

Lemma z_unfold (v : list R) (ξ : R) (λ_1 : list R) (λ_2 : R)
  (r : ObjectiveSpec.row) :
  ObjectiveSpec.z v ξ λ_1 λ_2 r
  = Rmax 0
      (0.5 - (ObjectiveSpec.g_t r + Np.dot (ObjectiveSpec.next_indicator_t r) v
              + Np.dot (ObjectiveSpec.f_block_t r) λ_1 + λ_2) / ξ).
Proof. reflexivity. Qed.

Lemma sum_sq_convex (v : list R) (ξ t : R) (a1 b1 : list R) (a2 b2 : R)
  (rs : list ObjectiveSpec.row) :
  0 < ξ -> 0 <= t <= 1 -> length a1 = length b1 ->
  Np.sum (map (fun e => e * e)
            (map (ObjectiveSpec.z v ξ (mix t a1 b1) (t * a2 + (1 - t) * b2))
               rs))
  <= t * Np.sum (map (fun e => e * e) (map (ObjectiveSpec.z v ξ a1 a2) rs))
     + (1 - t)
       * Np.sum (map (fun e => e * e) (map (ObjectiveSpec.z v ξ b1 b2) rs)).
Proof.
  intros Hξ Ht Hl. induction rs as [|r rs IH]; cbn [map Np.sum]; [lra|].
  rewrite !z_unfold.
  rewrite (z_mix v ξ t a1 b1 a2 b2 r Hξ Hl).
  pose proof (sq_pos_part_convex t
    (0.5 - (ObjectiveSpec.g_t r + Np.dot (ObjectiveSpec.next_indicator_t r) v
            + Np.dot (ObjectiveSpec.f_block_t r) a1 + a2) / ξ)
    (0.5 - (ObjectiveSpec.g_t r + Np.dot (ObjectiveSpec.next_indicator_t r) v
            + Np.dot (ObjectiveSpec.f_block_t r) b1 + b2) / ξ) Ht).
  lra.
Qed.

(** The evaluator in its row form (what [objective_rows] gives). *)
Lemma objective_row_form (f : list (list R)) (g : list R)
  (lag : list (list bool)) (next : list (list R)) (s k : nat) (v : list R)
  (ξ : R) (λ : list R) :
  (1 <= s)%nat -> 0 < ξ -> length λ = (k + 1)%nat ->
  _objective_numba f g lag next s k v ξ λ
  = option_map (fun mval => mval * (ξ / 2) + nth k λ 0)
      (Np.mean
         (map (fun e => e * e)
            (map (ObjectiveSpec.z v ξ (firstn k λ) (nth k λ 0))
               (filter ObjectiveSpec.in_state
                  (ObjectiveSpec.rows s k lag g next f))))).
Proof.
  intros Hs Hξ Hλ. unfold _objective_numba.
  destruct (split_last_len k λ Hλ) as [-> ->].
  rewrite objective_rows by assumption. rewrite map_sq.
  destruct (Np.mean _); reflexivity.
Qed.

(** X6.  For a positive [ξ] the objective is convex in [λ]: where it is
    defined at [λ] and at [λ'] (both of length [n_f + 1]), it is defined at
    every point [t λ + (1 - t) λ'] between them, with a value no greater
    than the same combination of the two values. *)
Theorem objective_convex (f : list (list R)) (g : list R)
  (lag : list (list bool)) (next : list (list R)) (s k : nat) (v : list R)
  (ξ t : R) (λ λ' : list R) (a b : R) :
  (1 <= s)%nat -> 0 < ξ -> 0 <= t <= 1 ->
  length λ = (k + 1)%nat -> length λ' = (k + 1)%nat ->
  _objective_numba f g lag next s k v ξ λ = Some a ->
  _objective_numba f g lag next s k v ξ λ' = Some b ->
  exists c,
    _objective_numba f g lag next s k v ξ (mix t λ λ') = Some c
    /\ c <= t * a + (1 - t) * b.
Proof.
  intros Hs Hξ Ht Hλ Hλ'.
  assert (Hm : length (mix t λ λ') = (k + 1)%nat)
    by (rewrite length_mix; congruence).
  rewrite !objective_row_form by assumption.
  rewrite firstn_mix, nth_mix by lia.
  set (rs := filter ObjectiveSpec.in_state
               (ObjectiveSpec.rows s k lag g next f)).
  set (rs_sq := map (fun e => e * e)
                  (map (ObjectiveSpec.z v ξ (firstn k λ) (nth k λ 0)) rs)).
  assert (Hl : length (firstn k λ) = length (firstn k λ'))
    by (rewrite !length_firstn; lia).
  pose proof (sum_sq_convex v ξ t (firstn k λ) (firstn k λ') (nth k λ 0)
                (nth k λ' 0) rs Hξ Ht Hl) as Hsum.
  assert (Hmean : forall h : ObjectiveSpec.row -> R,
            rs <> [] ->
            Np.mean (map (fun e => e * e) (map h rs))
            = Some (Np.sum (map (fun e => e * e) (map h rs))
                    / INR (length rs))).
  { intros h Hne. unfold Np.mean. rewrite !length_map.
    destruct rs; [congruence|reflexivity]. }
  destruct (list_eq_dec Req_dec_T rs_sq []) as [Hempty|Hne].
  { apply map_eq_nil, map_eq_nil in Hempty. rewrite Hempty. discriminate. }
  assert (Hrs : rs <> []).
  { intros E. apply Hne. unfold rs_sq. now rewrite E. }
  clear Hne.
  unfold rs_sq in *. clear rs_sq. rewrite !Hmean by exact Hrs.
  cbn [option_map].
  assert (Hn : 0 < INR (length rs)).
  { apply lt_0_INR. destruct rs; [congruence|simpl; lia]. }
  intros Ha Hb. eexists. split; [reflexivity|].
  assert (Ea : Np.sum (map (fun e => e * e)
                 (map (ObjectiveSpec.z v ξ (firstn k λ) (nth k λ 0)) rs))
               / INR (length rs) * (ξ / 2) + nth k λ 0 = a) by congruence.
  assert (Eb : Np.sum (map (fun e => e * e)
                 (map (ObjectiveSpec.z v ξ (firstn k λ') (nth k λ' 0)) rs))
               / INR (length rs) * (ξ / 2) + nth k λ' 0 = b) by congruence.
  rewrite <- Ea, <- Eb. clear Ha Hb Ea Eb.
  set (S0 := Np.sum (map _ (map (ObjectiveSpec.z v ξ (mix _ _ _) _) rs)))
    in *.
  set (S1 := Np.sum (map _ (map (ObjectiveSpec.z v ξ (firstn k λ) _) rs)))
    in *.
  set (S2 := Np.sum (map _ (map (ObjectiveSpec.z v ξ (firstn k λ') _) rs)))
    in *.
  assert (Hi : 0 < / INR (length rs)) by now apply Rinv_0_lt_compat.
  unfold Rdiv. set (w := / INR (length rs)) in *.
  assert (Hd : S0 * w <= (t * S1 + (1 - t) * S2) * w)
    by (apply Rmult_le_compat_r; lra).
  assert (Hh : 0 < ξ * / 2) by lra.
  assert (Hd2 : S0 * w * (ξ * / 2) <= (t * S1 + (1 - t) * S2) * w * (ξ * / 2))
    by (apply Rmult_le_compat_r; lra).
  lra.
Qed.

(** ** More on [iterate] *)

Section IterateMore.

Variable minimize : Scipy.minimize_t.
Variable linalg_solve : linalg_solve_t.

(** X7.  With [g] set and a tolerance of 1 or more the loop of [iterate]
    is not entered, the initial error being 1; on an object where [μ] is
    set whenever [v] is, as the constructor and every pass leave it, the
    call then fails after recording [ξ] and the mode: on the unset [v] of
    a fresh object, and otherwise on [λ_1], which only the loop binds. *)
Theorem iterate_tol_too_large (steps : nat) (s : solver) (ξ_ : R)
  (lo : bool) :
  1 <= tol s -> g s <> None -> (μ s = None -> v s = None) ->
  iterate minimize linalg_solve steps s ξ_ lo
  = Raise (match v s with
           | Some _ => UnboundLocalError
           | None => OperandError
           end) (set_ξ_lower ξ_ lo s).
Proof.
  intros Ht Hg _. unfold iterate. destruct (g s) as [g_|]; [|congruence].
  rewrite while_loop_exit by (cbn; lra).
  unfold finish. cbn. destruct (v s); reflexivity.
Qed.






(** What [iterate] hands back, result or exception, holds the data it was
    given. *)
Lemma finish_same_inputs (s : solver) (l : locals) :
  match finish linalg_solve s l with
  | Return _ s' | Raise _ s' => same_inputs s s'
  | Running => True
  end.
Proof.
  unfold finish.
  destruct (count l), (v s), (μ s), (g s) eqn:Eg, (ξ s), (lower s) as [[|]|];
    cbv zeta; try (repeat split; fail).
  all: repeat match goal with
       | |- context [stationary ?ls ?Pm] => destruct (stationary ls Pm)
       end; repeat split; auto.
Qed.

Lemma iterate_keeps_inputs_lemma (steps : nat) (s : solver) (ξ_ : R)
  (lo : bool) :
  match iterate minimize linalg_solve steps s ξ_ lo with
  | Return _ s' | Raise _ s' => same_inputs s s'
  | Running => True
  end.
Proof.
  unfold iterate. destruct (g s) eqn:Eg; [|repeat split].
  destruct (while_loop _ _ _ _) as [[s1 l1]|] eqn:Ew; [|exact I].
  apply while_loop_frame in Ew.
  pose proof (finish_same_inputs s1 l1) as Hf.
  destruct (finish linalg_solve s1 l1) as [res s'|e s'|]; [| |exact I].
  all: destruct Ew as (F1 & F2 & F3 & F4 & F5 & F6 & F7 & F8 & F9 & _);
    destruct Hf as (G1 & G2 & G3 & G4 & G5 & G6 & G7);
    cbn in F1, F2, F3, F5, F7, F8, F9;
    repeat split; congruence.
Qed.

(** X10.  Whether it returns or raises, [iterate] leaves the indicator
    matrices, [f], [g], the tolerance and the iteration cap of the object
    as they were. *)
Theorem iterate_keeps_inputs (steps : nat) (s : solver) (ξ_ : R)
  (lo : bool) :
  (forall res s',
     iterate minimize linalg_solve steps s ξ_ lo = Return res s' ->
     same_inputs s s')
  /\ (forall e s',
        iterate minimize linalg_solve steps s ξ_ lo = Raise e s' ->
        same_inputs s s').
Proof.
  pose proof (iterate_keeps_inputs_lemma steps s ξ_ lo) as H.
  split; intros x s' E; rewrite E in H; exact H.
Qed.

End IterateMore.

Section Reentrancy.

Variable minimize : Scipy.minimize_t.
Variable linalg_solve : linalg_solve_t.

Lemma objective_agree (s s' : solver) :
  same_inputs s s' -> ξ s' = ξ s -> lower s' = lower s -> v s' = v s ->
  state s' = state s ->
  _objective s' = _objective s.
Proof.
  intros (H1 & H2 & H3 & H4 & H5 & H6 & H7) Hξ Hl Hv Hs.
  unfold _objective. now rewrite H2, H3, H4, H5, Hξ, Hl, Hv, Hs.
Qed.

Lemma solve_state_agree (s s' : solver) (l : locals) (k : nat) :
  same_inputs s s' -> ξ s' = ξ s -> lower s' = lower s -> v s' = v s ->
  let r := solve_state minimize (s, l) k in
  let r' := solve_state minimize (s', l) k in
  snd r' = snd r
  /\ same_inputs (fst r) (fst r') /\ ξ (fst r') = ξ (fst r)
  /\ lower (fst r') = lower (fst r) /\ v (fst r') = v (fst r)
  /\ μ (fst r) = μ s /\ μ (fst r') = μ s'.
Proof.
  intros Hin Hξ Hl Hv. cbv zeta. rewrite !solve_state_eq.
  assert (Ho : _objective (set_state k s') = _objective (set_state k s)).
  { apply objective_agree; auto. }
  destruct Hin as (H1 & H2 & H3 & H4 & H5 & H6 & H7).
  unfold _min_objective. rewrite Ho. cbn [tol max_iter set_state].
  rewrite H6, H7. cbn [fst snd]. split; [reflexivity|].
  destruct (Scipy.success _); cbn; repeat split; assumption.
Qed.

Lemma states_agree (ks : list nat) :
  forall (s s' : solver) (l : locals),
    same_inputs s s' -> ξ s' = ξ s -> lower s' = lower s -> v s' = v s ->
    let r := fold_left (solve_state minimize) ks (s, l) in
    let r' := fold_left (solve_state minimize) ks (s', l) in
    snd r' = snd r
    /\ same_inputs (fst r) (fst r') /\ ξ (fst r') = ξ (fst r)
    /\ lower (fst r') = lower (fst r) /\ v (fst r') = v (fst r)
    /\ μ (fst r) = μ s /\ μ (fst r') = μ s'.
Proof.
  induction ks as [|k ks IH]; intros s s' l Hin Hξ Hl Hv; cbv zeta.
  - cbn. destruct Hin as (? & ? & ? & ? & ? & ? & ?).
    repeat split; auto.
  - cbn [fold_left].
    pose proof (solve_state_agree s s' l k Hin Hξ Hl Hv) as H.
    cbv zeta in H.
    destruct (solve_state minimize (s, l) k) as [s1 l1].
    destruct (solve_state minimize (s', l) k) as [s1' l1'].
    cbn [fst snd] in H. destruct H as (E & Hin1 & Hξ1 & Hl1 & Hv1 & M1 & M2).
    subst l1'. specialize (IH s1 s1' l1 Hin1 Hξ1 Hl1 Hv1). cbv zeta in IH.
    destruct IH as (E & A1 & A2 & A3 & A4 & A5 & A6).
    repeat split; try apply A1; congruence.
Qed.

Lemma same_inputs_set_v (a : list R) (s s' : solver) :
  same_inputs s s' -> same_inputs (set_v a s) (set_v a s').
Proof. intros (? & ? & ? & ? & ? & ? & ?). repeat split; assumption. Qed.

Lemma loop_body_agree (s s' : solver) (l : locals) :
  same_inputs s s' -> ξ s' = ξ s -> lower s' = lower s ->
  count l = 0%nat \/ v s' = v s ->
  snd (loop_body minimize s' l) = snd (loop_body minimize s l)
  /\ in_step (fst (loop_body minimize s l)) (fst (loop_body minimize s' l)).
Proof.
  intros Hin Hξ Hl Hc. unfold loop_body.
  destruct (count l =? 0)%nat eqn:Ec.
  - match goal with
    | |- context [fold_left _ _ (set_v ?a s, ?l0)] =>
        pose proof (states_agree (seq 1 n_states) (set_v a s) (set_v a s') l0
                      (same_inputs_set_v a s s' Hin) Hξ Hl eq_refl) as H
    end.
    cbv zeta in H.
    destruct (fold_left _ _ (set_v _ s, _)) as [s1 l1].
    destruct (fold_left _ _ (set_v _ s', _)) as [s1' l1'].
    cbn [fst snd] in H. destruct H as (E & A1 & A2 & A3 & A4 & _).
    subst l1'. cbn [fst snd]. rewrite A4. split; [reflexivity|].
    destruct A1 as (? & ? & ? & ? & ? & ? & ?).
    repeat split; cbn; assumption.
  - apply Nat.eqb_neq in Ec. destruct Hc as [Hc|Hv]; [contradiction|].
    pose proof (states_agree (seq 1 n_states) s s' l Hin Hξ Hl Hv) as H.
    cbv zeta in H.
    destruct (fold_left _ _ (s, l)) as [s1 l1].
    destruct (fold_left _ _ (s', l)) as [s1' l1'].
    cbn [fst snd] in H. destruct H as (E & A1 & A2 & A3 & A4 & _).
    subst l1'. cbn [fst snd]. rewrite A4. split; [reflexivity|].
    destruct A1 as (? & ? & ? & ? & ? & ? & ?).
    repeat split; cbn; assumption.
Qed.

Lemma while_loop_agree (steps : nat) :
  forall (s s' : solver) (l : locals),
    same_inputs s s' -> ξ s' = ξ s -> lower s' = lower s ->
    count l = 0%nat \/ (v s' = v s /\ μ s' = μ s) ->
    match while_loop minimize steps s l, while_loop minimize steps s' l with
    | Some (t, l1), Some (t', l1') =>
        l1' = l1 /\ same_inputs t t' /\ ξ t' = ξ t /\ lower t' = lower t
        /\ (count l1 = 0%nat \/ (v t' = v t /\ μ t' = μ t))
    | None, None => True
    | _, _ => False
    end.
Proof.
  induction steps as [|n IH]; intros s s' l Hin Hξ Hl Hc.
  - rewrite !while_loop_0.
    destruct Hin as (H1 & H2 & H3 & H4 & H5 & H6 & H7). rewrite H6.
    destruct (Rgt_dec _ _); [exact I|]. repeat split; assumption.
  - rewrite !while_loop_S.
    pose proof Hin as (H1 & H2 & H3 & H4 & H5 & H6 & H7). rewrite H6.
    destruct (Rgt_dec _ _); [|repeat split; assumption].
    assert (Hc' : count l = 0%nat \/ v s' = v s) by tauto.
    destruct (loop_body_agree s s' l Hin Hξ Hl Hc')
      as (E & Hin' & Hξ' & Hl' & Hv' & Hμ').
    rewrite E. apply IH; auto.
Qed.

Lemma finish_agree (s s' : solver) (l : locals) (res : result) (t : solver) :
  in_step s s' ->
  finish linalg_solve s l = Return res t ->
  exists t', finish linalg_solve s' l = Return res t' /\ same_inputs t t'.
Proof.
  intros ((H1 & H2 & H3 & H4 & H5 & H6 & H7) & Hξ & Hl & Hv & Hμ).
  unfold finish. rewrite H1, H3, H4, H5, Hξ, Hl, Hv, Hμ.
  destruct (g s) as [g_|] eqn:Eg;
    [|destruct (count l), (v s), (μ s), (ξ s), (lower s); discriminate].
  destruct (count l), (v s), (μ s), (ξ s), (lower s) as [lo|];
    try discriminate.
  cbv zeta.
  destruct (stationary linalg_solve (P_tilde_of _ _ _)); [|discriminate].
  destruct (stationary linalg_solve (P_of _ _)); [|discriminate].
  intros [= <- <-]. eexists. split; [reflexivity|].
  destruct lo; repeat split; cbn; auto; congruence.
Qed.

(** X9.  A result returned by [iterate] depends on the data, [g], the
    tolerance and the iteration cap only, not on what earlier calls left
    in [v], [μ], [ξ], the mode or the state: a solver with the same inputs
    returns the same result, and so does a second call on the object the
    first call left. *)
Theorem iterate_forgets_state (steps : nat) (s s' : solver) (ξ_ : R)
  (lo : bool) (res : result) (t : solver) :
  same_inputs s s' ->
  iterate minimize linalg_solve steps s ξ_ lo = Return res t ->
  (exists t', iterate minimize linalg_solve steps s' ξ_ lo = Return res t')
  /\ exists t'', iterate minimize linalg_solve steps t ξ_ lo = Return res t''.
Proof.
  intros Hin H.
  assert (Hgen : forall u, same_inputs s u ->
            exists t', iterate minimize linalg_solve steps u ξ_ lo
                       = Return res t').
  { intros u Hu. unfold iterate in *.
    pose proof Hu as (H1 & H2 & H3 & H4 & H5 & H6 & H7).
    assert (Hu' : same_inputs (set_ξ_lower ξ_ lo s) (set_ξ_lower ξ_ lo u))
      by (repeat split; cbn; assumption).
    rewrite H5. destruct (g s); [|discriminate].
    pose proof (while_loop_agree steps _ _
                  {| error := 1; count := 0; v_μ := []; λ_1 := []; λ_2 := [] |}
                  Hu' eq_refl eq_refl (or_introl eq_refl)) as Hw.
    destruct (while_loop minimize steps (set_ξ_lower ξ_ lo s) _)
      as [[s1 l1]|]; [|discriminate].
    destruct (while_loop minimize steps (set_ξ_lower ξ_ lo u) _)
      as [[u1 l1']|]; [|contradiction].
    destruct Hw as (-> & A1 & A2 & A3 & A4).
    destruct (finish_Return _ _ _ _ _ H)
      as (g0 & lo0 & _ & _ & _ & _ & _ & _ & _ & _ & Hc0 & _).
    destruct A4 as [A4|[A4 A5]]; [contradiction|].
    destruct (finish_agree s1 u1 l1 res t) as (t' & E & _); auto.
    - repeat split; try apply A1; assumption.
    - eauto. }
  split; [now apply Hgen|]. apply Hgen.
  pose proof (iterate_keeps_inputs_lemma minimize linalg_solve steps s ξ_ lo)
    as Hk.
  rewrite H in Hk. exact Hk.
Qed.

End Reentrancy.

(** ** More on [find_ξ] *)

Section CalibratorMore.

Variable minimize : Scipy.minimize_t.
Variable linalg_solve : linalg_solve_t.



(** X12.  With [max_iter = 0], [find_ξ] never returns a value: once the
    reference run at [ξ = 100] has returned, the loop is skipped and the
    final [return ξ] fails on the unbound [ξ], the object being left as the
    reference run left it, with [ξ = 100]. *)
Theorem find_xi_no_pass (steps : nat) (s : solver) (x : R) (lo : bool)
  (tol_ : R) :
  (forall r s', find_ξ minimize linalg_solve steps s x lo tol_ 0
                <> Return r s')
  /\ forall ref s_ref,
       iterate minimize linalg_solve steps s 100 lo = Return ref s_ref ->
       find_ξ minimize linalg_solve steps s x lo tol_ 0
       = Raise UnboundLocalError s_ref
       /\ ξ s_ref = Some 100.
Proof.
  split.
  - intros r s'. unfold find_ξ.
    destruct (iterate minimize linalg_solve steps s 100 lo); discriminate.
  - intros ref s_ref H. unfold find_ξ. rewrite H. split; [reflexivity|].
    destruct (iterate_Return _ _ _ _ _ _ _ _ H) as (g_ & s1 & l1 & Rest).
    repeat match type of Rest with _ /\ _ => destruct Rest as [_ Rest] end.
    exact Rest.
Qed.

(** X13.  With [g] unset, [find_ξ] raises the exception of [iterate] at
    its reference run and leaves the object untouched. *)
Theorem find_xi_without_g (steps : nat) (s : solver) (x : R) (lo : bool)
  (tol_ : R) (max_iter_ : nat) :
  g s = None ->
  find_ξ minimize linalg_solve steps s x lo tol_ max_iter_
  = Raise (Exception "Sorry, please define self.g first!") s.
Proof.
  intros H. unfold find_ξ, iterate. now rewrite H.
Qed.

(** A run of the bisection that returns without the diagnostic has just
    evaluated the value it returns and found it within the tolerance. *)
Lemma bisect_converged (steps : nat) (min_RE : Np.nr) (x : R) (lo : bool)
  (tol_ : R) (mi : nat) :
  forall (n : nat) (s : solver) (b : bracket) (r : R) (s' : solver),
    (0 < n)%nat -> (bcount b + n = mi)%nat ->
    bisect minimize linalg_solve steps n s b min_RE x lo tol_ mi
    = Return r s' ->
    ~ ends_with_max_iter s' ->
    exists s0 res,
      iterate minimize linalg_solve steps s0 r lo = Return res s'
      /\ Np.nr_abs_lt (Np.nr_sub (Np.nr_div (RE res) min_RE) (Some x)) tol_
         = true.
Proof.
  induction n as [|n IH]; intros s b r s' Hn Hcnt H Hnd; [lia|].
  cbn [bisect] in H.
  destruct (iterate minimize linalg_solve steps s (bξ b) lo)
    as [result s1| |] eqn:Eit; try discriminate.
  destruct (Np.nr_abs_lt _ tol_) eqn:Ea.
  { injection H as <- <-. eauto. }
  cbv zeta in H.
  destruct n as [|n].
  - exfalso. apply Hnd.
    assert (Hmi : (bcount b + 1 =? mi)%nat = true)
      by (apply Nat.eqb_eq; lia).
    destruct (Np.nr_neg _); cbn [bcount bξ lower_bound upper_bound] in H;
      rewrite Hmi in H; cbn [bisect] in H; injection H as _ <-;
      unfold ends_with_max_iter; cbn; eauto.
  - assert (Hmi : (bcount b + 1 =? mi)%nat = false)
      by (apply Nat.eqb_neq; lia).
    destruct (Np.nr_neg _); cbn [bcount bξ lower_bound upper_bound] in H;
      rewrite Hmi in H; apply IH in H; auto;
      cbn [bcount bξ lower_bound upper_bound]; lia.
Qed.

Lemma abs_lt_real (e : Np.nr) (t : R) :
  Np.nr_abs_lt e t = true -> exists r, e = Some r /\ Rabs r < t.
Proof.
  unfold Np.nr_abs_lt. destruct e as [r|]; [|discriminate].
  destruct (Rlt_dec _ _); [eauto|discriminate].
Qed.

(** X14.  When [find_ξ] returns without having printed that the
    iterations were exhausted, the value returned was evaluated: the last
    run of [iterate] was at that [ξ], the object holds it, and the relative
    entropy of that run over the (non-zero) relative entropy of the
    reference run is within the tolerance of the target. *)
Theorem find_xi_converged (steps : nat) (s : solver) (x : R) (lo : bool)
  (tol_ : R) (max_iter_ : nat) (r : R) (s' : solver) :
  find_ξ minimize linalg_solve steps s x lo tol_ max_iter_ = Return r s' ->
  ~ ends_with_max_iter s' ->
  exists ref s_ref s0 res re m,
    iterate minimize linalg_solve steps s 100 lo = Return ref s_ref
    /\ iterate minimize linalg_solve steps s0 r lo = Return res s'
    /\ RE ref = Some m /\ m <> 0 /\ RE res = Some re
    /\ Rabs (re / m - x) < tol_
    /\ ξ s' = Some r.
Proof.
  unfold find_ξ. intros H Hnd.
  destruct (iterate minimize linalg_solve steps s 100 lo)
    as [ref s_ref| |] eqn:Eref; try discriminate.
  destruct max_iter_ as [|k]; [discriminate|].
  apply bisect_converged in H; cbn [bcount]; try lia; auto.
  destruct H as (s0 & res & Eit & Ha).
  apply abs_lt_real in Ha. destruct Ha as (e & He & Habs).
  unfold Np.nr_sub, Np.nr_div, Np.nr_lift2 in He.
  destruct (RE res) as [re|] eqn:Ere; [|discriminate].
  destruct (RE ref) as [m|] eqn:Em; [|discriminate].
  destruct (Req_dec_T m 0) as [|Hm]; [discriminate|].
  injection He as <-.
  exists ref, s_ref, s0, res, re, m. repeat split; auto.
  destruct (iterate_Return _ _ _ _ _ _ _ _ Eit) as (g_ & s1 & l1 & Rest).
  repeat match type of Rest with _ /\ _ => destruct Rest as [_ Rest] end.
  exact Rest.
Qed.

End CalibratorMore.

(** ** The stationary distributions *)

Lemma nr_dot3_real (r1 r2 r3 : R) (y : list Np.nr) (b : R) :
  length y = 3%nat ->
  Np.nr_dot [Some r1; Some r2; Some r3] y = Some b ->
  exists a1 a2 a3,
    y = [Some a1; Some a2; Some a3]
    /\ r1 * a1 + (r2 * a2 + (r3 * a3 + 0)) = b.
Proof.
  intros Hl H. destruct y as [|[a1|] [|[a2|] [|[a3|] [|]]]];
    try discriminate.
  exists a1, a2, a3. split; [reflexivity|]. cbn in H. congruence.
Qed.

(** The solution of the system that [stationary] builds from a matrix of
    real entries sums to [1] and satisfies the first two balance
    equations. *)
Lemma stationary_real (ls : linalg_solve_t)
  (p11 p12 p13 p21 p22 p23 p31 p32 p33 : R) (y : list Np.nr) :
  (forall A B x, ls A B = Some x -> length x = length B) ->
  exact_on_states ls ->
  stationary ls
    [[Some p11; Some p12; Some p13]; [Some p21; Some p22; Some p23];
     [Some p31; Some p32; Some p33]] = Some y ->
  exists a b c,
    y = [Some a; Some b; Some c]
    /\ a + b + c = 1
    /\ p11 * a + p21 * b + p31 * c = a
    /\ p12 * a + p22 * b + p32 * c = b.
Proof.
  intros Hshape Hexact H. unfold stationary in H.
  cbn -[Rplus Rmult Rminus] in H.
  pose proof (Hshape _ _ _ H) as Hl. cbn in Hl.
  apply Hexact in H. unfold solves in H.
  inversion H as [|? ? ? ? E1 H']; subst; clear H.
  inversion H' as [|? ? ? ? E2 H'']; subst; clear H'.
  inversion H'' as [|? ? ? ? E3 _]; subst; clear H''.
  destruct (nr_dot3_real _ _ _ _ _ Hl E1) as (a & b & c & -> & F1).
  cbn in E2, E3.
  exists a, b, c. split; [reflexivity|].
  injection E2 as F2. injection E3 as F3.
  repeat split; lra.
Qed.

Lemma mean_nonempty (l : list R) :
  l <> [] -> exists p, Np.mean l = Some p.
Proof. destruct l; [congruence|]. intros _. unfold Np.mean. eauto. Qed.

Lemma next_in_nonempty (ind lag : list (list bool)) (i j : nat) :
  Np.select (rows_of lag i) ind <> [] -> next_in ind lag i j <> [].
Proof.
  unfold next_in, Np.bcol. destruct (Np.select _ ind); [congruence|].
  discriminate.
Qed.

Lemma P_of_real (ind lag : list (list bool)) :
  (forall i, (1 <= i <= n_states)%nat ->
     Np.select (rows_of lag i) ind <> []) ->
  exists p11 p12 p13 p21 p22 p23 p31 p32 p33,
    P_of ind lag
    = [[Some p11; Some p12; Some p13]; [Some p21; Some p22; Some p23];
       [Some p31; Some p32; Some p33]].
Proof.
  intros Hpop. unfold P_of, per_state. cbn [seq n_states map].
  assert (K : forall i j, (1 <= i <= 3)%nat ->
            exists p, Np.mean (next_in ind lag i j) = Some p).
  { intros i j Hi. apply mean_nonempty, next_in_nonempty, Hpop.
    unfold n_states. lia. }
  destruct (K 1%nat 1%nat) as [p11 ->]; [lia|].
  destruct (K 1%nat 2%nat) as [p12 ->]; [lia|].
  destruct (K 1%nat 3%nat) as [p13 ->]; [lia|].
  destruct (K 2%nat 1%nat) as [p21 ->]; [lia|].
  destruct (K 2%nat 2%nat) as [p22 ->]; [lia|].
  destruct (K 2%nat 3%nat) as [p23 ->]; [lia|].
  destruct (K 3%nat 1%nat) as [p31 ->]; [lia|].
  destruct (K 3%nat 2%nat) as [p32 ->]; [lia|].
  destruct (K 3%nat 3%nat) as [p33 ->]; [lia|].
  now exists p11, p12, p13, p21, p22, p23, p31, p32, p33.
Qed.

Section Stationary.

Variable minimize : Scipy.minimize_t.
Variable linalg_solve : linalg_solve_t.

(** X15.  With a linear solver that returns solutions of 3 x 3 real
    systems, one-hot rows for tomorrow's state and every state observed,
    the [π] of a result returned by [iterate] is a stationary distribution
    of [P]: its entries sum to 1 and [π P = π]. *)
Theorem stationary_distribution (steps : nat) (s : solver) (ξ_ : R)
  (lo : bool) (res : result) (s' : solver) :
  (forall A B y, linalg_solve A B = Some y -> length y = length B) ->
  exact_on_states linalg_solve ->
  Forall one_hot (pd_indicator s) ->
  (forall i, (1 <= i <= n_states)%nat ->
     Np.select (rows_of (pd_lag_indicator s) i) (pd_indicator s) <> []) ->
  iterate minimize linalg_solve steps s ξ_ lo = Return res s' ->
  Np.nr_sum (π res) = Some 1
  /\ forall j, (j < n_states)%nat ->
       Np.nr_dot (map (fun row => nth j row None) (P res)) (π res)
       = nth j (π res) None.
Proof.
  intros Hshape Hexact Hoh Hpop H.
  destruct (iterate_Return _ _ _ _ _ _ _ _ H)
    as (g_ & s1 & l1 & _ & _ & Hfin & _ & _ & _ & _ & _ & HP & _).
  destruct (finish_Return _ _ _ _ _ Hfin)
    as (g0 & lo0 & _ & _ & _ & _ & _ & _ & _ & _ & _ & _ & _ & _ & _ & _ & _
        & _ & Hst & _).
  pose proof (P_row_sums (pd_indicator s) (pd_lag_indicator s)) as Hrow.
  destruct (P_of_real _ _ Hpop)
    as (p11 & p12 & p13 & p21 & p22 & p23 & p31 & p32 & p33 & EP).
  assert (R1 := Hrow 1%nat Hoh (Hpop 1%nat ltac:(unfold n_states; lia))).
  assert (R2 := Hrow 2%nat Hoh (Hpop 2%nat ltac:(unfold n_states; lia))).
  assert (R3 := Hrow 3%nat Hoh (Hpop 3%nat ltac:(unfold n_states; lia))).
  unfold P_of, per_state in EP, R1, R2, R3.
  cbn [seq n_states map] in EP, R1, R2, R3.
  injection EP as E11 E12 E13 E21 E22 E23 E31 E32 E33.
  rewrite E11, E12, E13 in R1. rewrite E21, E22, E23 in R2.
  rewrite E31, E32, E33 in R3.
  cbn in R1, R2, R3. injection R1 as R1. injection R2 as R2.
  injection R3 as R3.
  rewrite HP in Hst |- *. unfold P_of, per_state in Hst |- *.
  cbn [seq n_states map] in Hst |- *.
  rewrite E11, E12, E13, E21, E22, E23, E31, E32, E33 in Hst |- *.
  destruct (stationary_real _ _ _ _ _ _ _ _ _ _ _ Hshape Hexact Hst)
    as (a & b & c & -> & Hsum & B1 & B2).
  split.
  - cbn. f_equal. lra.
  - intros j Hj. unfold n_states in Hj.
    assert (Hc : j = 0%nat \/ j = 1%nat \/ j = 2%nat) by lia.
    destruct Hc as [->|[->| ->]]; cbn; f_equal; nra.
Qed.

End Stationary.

(** ** More runs on the sample *)

Lemma cramer3_exact : exact_on_states cramer3.
Proof.
  unfold exact_on_states, cramer3, solves. intros.
  destruct (Req_dec_T _ _) as [|HD]; [discriminate|].
  injection H as <-. unfold det3 in *.
  repeat constructor; cbn; f_equal; field; exact HD.
Qed.

(** The constructor builds the sample from its data file. *)
Lemma init_sample :
  __init__ SampleFile.quantile SampleFile.csv 1e-8 0 = data None.
Proof.
  unfold __init__, data, SampleFile.csv, SampleFile.quantile, le_array,
    gt_array, next_rows, lag_rows, s1, s2, s3.
  cbn -[Rle_dec Rgt_dec Rmult Rminus Rdiv].
  repeat match goal with
  | |- context [Rle_dec ?a ?b] => destruct (Rle_dec a b); try lra
  | |- context [Rgt_dec ?a ?b] => destruct (Rgt_dec a b); try lra
  end.
  cbn -[Rmult]. unfold hstack3, mask_rows. cbn -[Rmult].
  rewrite !Rmult_0_l. reflexivity.
Qed.

(** The relative entropy of the flat sample, where the distortion is
    positive. *)
Lemma flat_RE_value (n : nat) (s : solver) (lo : bool) (ξ_ : R)
  (res : result) (s' : solver) :
  sampled [0; 0; 0; 0] s -> 0 < ξ_ -> 0 < m ξ_ ->
  iterate stalled cramer3 (S n) s ξ_ lo = Return res s' ->
  RE res = Some (m ξ_ * ln (m ξ_)).
Proof.
  intros Hs Hξ Hm H.
  destruct (flat_iterate n s lo ξ_ Hs Hξ) as (res0 & s0 & E & HM & _).
  rewrite E in H. injection H as <- <-.
  destruct (iterate_Return _ _ _ _ _ _ _ _ E)
    as (g_ & s1 & l1 & _ & _ & Hfin & _ & _ & _ & _ & HPt & _ & HRc & HR & _).
  destruct (finish_Return _ _ _ _ _ Hfin)
    as (g0 & lo0 & _ & _ & _ & _ & _ & _ & _ & _ & _ & _ & _ & _ & _ & _ & _
        & Hst & _).
  destruct Hs as (D1 & _ & D3 & _).
  rewrite HPt, D1, D3, HM in Hst.
  unfold P_tilde_of, per_state, next_in, rows_of in Hst.
  cbn -[Rplus Rmult Rdiv Ropp Rminus INR m stationary] in Hst.
  apply (stationary_real cramer3) in Hst;
    [|exact cramer3_shape|exact cramer3_exact].
  destruct Hst as (a & b & c & Hπ & Hsum & _).
  rewrite HR, HRc, Hπ, D3, HM.
  unfold RE_cond_of, per_state, rows_of, Np.log.
  cbn -[Rplus Rmult Rdiv Ropp Rminus INR ln m Rlt_dec].
  destruct (Rlt_dec 0 (m ξ_)); [|contradiction].
  cbn -[Rplus Rmult Rdiv Ropp Rminus INR ln m]. f_equal. simpl INR.
  replace c with (1 - a - b) by lra. field.
Qed.

Lemma m_mid : 0 < m ((1 + 100) / 2).
Proof.
  unfold m, q.
  replace (Rmax 0 (0.5 - 1 / ((1 + 100) / 2))) with (97 / 202)
    by (unfold Rmax; destruct (Rle_dec 0 _); lra).
  unfold Rmax. destruct (Rle_dec 0 _); lra.
Qed.

Lemma xlogx_neg (a : R) : 0 < a < 1 -> a * ln a < 0.
Proof.
  intros [H0 H1]. pose proof (ln_increasing a 1 H0 H1) as H.
  rewrite ln_1 in H. nra.
Qed.

(** Two passes of the bisection on the flat sample, aimed at [x_mid]: the
    candidate [50.5] is evaluated, meets the target, and is returned. *)
Lemma flat_find_ξ_converges :
  exists s',
    find_ξ stalled cramer3 1 flat x_mid true 1e-7 2
    = Return ((1 + 100) / 2) s'
    /\ ends_with_array s'.
Proof.
  unfold find_ξ.
  destruct (flat_iterate 0 flat true 100 flat_sampled)
    as (ref & s1 & E1 & _ & Hs1); [lra|].
  pose proof (flat_RE_value 0 flat true 100 ref s1 flat_sampled
                ltac:(lra) m_100 E1) as Href.
  rewrite E1. cbn [bisect bξ].
  destruct (flat_iterate 0 s1 true 1 Hs1) as (res & s2 & E2 & _ & Hs2); [lra|].
  rewrite E2.
  destruct (flat_RE_at_1 0 s1 true res s2 Hs1 E2) as [_ HRE].
  rewrite HRE. cbn -[bisect Rplus Rdiv].
  cbn [bisect bξ].
  destruct (flat_iterate 0 s2 true ((1 + 100) / 2) Hs2)
    as (res3 & s3 & E3 & _); [lra|].
  rewrite E3.
  pose proof (flat_RE_value 0 s2 true ((1 + 100) / 2) res3 s3 Hs2
                ltac:(lra) m_mid E3) as Hmid.
  rewrite Hmid, Href. unfold Np.nr_div.
  pose proof (m_bounds 100 ltac:(lra)) as Hb.
  pose proof (xlogx_neg (m 100) ltac:(pose proof m_100; lra)) as Hneg.
  destruct (Req_dec_T _ 0) as [E0|_]; [lra|].
  unfold Np.nr_sub, Np.nr_lift2, Np.nr_abs_lt.
  fold x_mid. replace (x_mid - x_mid) with 0 by ring. rewrite Rabs_R0.
  match goal with
  | |- context [Rlt_dec ?a ?b] => destruct (Rlt_dec a b); [|exfalso; lra]
  end.
  exists s3. split; [reflexivity|]. eapply iterate_stdout; eauto.
Qed.

(** The objective is defined on the third state of the sample, at the
    starting point of the optimiser and at the origin. *)
Lemma sample_objective_defined (λ : list R) :
  exists r,
    _objective_numba (f flat) [0; 0; 0; 0] lag_rows
      (Np.astype_float next_rows) 3 4 [0; 0; 0] 1 λ = Some r.
Proof.
  unfold _objective_numba.
  cbn -[Rplus Rmult Rdiv Ropp Rminus pow INR removelast last Np.clip0 Np.matvec].
  eexists. reflexivity.
Qed.

Lemma sample_populated (i : nat) :
  (1 <= i <= n_states)%nat ->
  Np.select (rows_of (pd_lag_indicator flat) i) (pd_indicator flat) <> [].
Proof.
  unfold n_states. intros H.
  assert (Hi : i = 1%nat \/ i = 2%nat \/ i = 3%nat) by lia.
  destruct Hi as [->|[->| ->]]; discriminate.
Qed.

Lemma init_one_hot_witness :
  SampleFile.quantile (map d_p SampleFile.csv) (1 / 3)
  <= SampleFile.quantile (map d_p SampleFile.csv) (2 / 3)
  /\ Forall one_hot
       (pd_lag_indicator (__init__ SampleFile.quantile SampleFile.csv 1e-8 0))
  /\ Forall one_hot
       (pd_indicator (__init__ SampleFile.quantile SampleFile.csv 1e-8 0)).
Proof.
  assert (H : SampleFile.quantile (map d_p SampleFile.csv) (1 / 3)
              <= SampleFile.quantile (map d_p SampleFile.csv) (2 / 3))
    by (unfold SampleFile.quantile; lra).
  split; [exact H|].
  exact (init_one_hot SampleFile.quantile SampleFile.csv 1e-8 0 H).
Defined.

Lemma init_f_blocks_witness :
  (1 < n_states)%nat
  /\ let s := __init__ SampleFile.quantile SampleFile.csv 1e-8 0 in
     Np.cols (1 * n_f) ((1 + 1) * n_f) (f s)
     = Np.zip_with (fun x l => if nth 1 l false then x else Np.zeros n_f)
         (X s) (pd_lag_indicator s)
     /\ Np.select (Np.bcol 1 (pd_lag_indicator s))
          (Np.cols (1 * n_f) ((1 + 1) * n_f) (f s))
        = Np.select (Np.bcol 1 (pd_lag_indicator s)) (X s).
Proof.
  assert (H : (1 < n_states)%nat) by (unfold n_states; lia).
  split; [exact H|].
  exact (init_f_blocks SampleFile.quantile SampleFile.csv 1e-8 0 1 H).
Defined.

Lemma objective_lower_bound_witness :
  exists r,
    0 < 1
    /\ _objective_numba (f flat) [0; 0; 0; 0] lag_rows
         (Np.astype_float next_rows) 3 4 [0; 0; 0] 1 (Np.ones 5) = Some r
    /\ last (Np.ones 5) 0 <= r.
Proof.
  destruct (sample_objective_defined (Np.ones 5)) as [r H].
  exists r. split; [lra|]. split; [exact H|].
  apply (objective_lower_bound (f flat) [0; 0; 0; 0] lag_rows
           (Np.astype_float next_rows) 3 4 [0; 0; 0] 1 (Np.ones 5) r);
    [lra | exact H].
Defined.


Lemma objective_convex_witness :
  exists a b c,
    (1 <= 3)%nat /\ 0 < 1 /\ 0 <= 1 / 2 <= 1
    /\ length (Np.ones 5) = (4 + 1)%nat /\ length (Np.zeros 5) = (4 + 1)%nat
    /\ _objective_numba (f flat) [0; 0; 0; 0] lag_rows
         (Np.astype_float next_rows) 3 4 [0; 0; 0] 1 (Np.ones 5) = Some a
    /\ _objective_numba (f flat) [0; 0; 0; 0] lag_rows
         (Np.astype_float next_rows) 3 4 [0; 0; 0] 1 (Np.zeros 5) = Some b
    /\ _objective_numba (f flat) [0; 0; 0; 0] lag_rows
         (Np.astype_float next_rows) 3 4 [0; 0; 0] 1
         (mix (1 / 2) (Np.ones 5) (Np.zeros 5)) = Some c
    /\ c <= 1 / 2 * a + (1 - 1 / 2) * b.
Proof.
  destruct (sample_objective_defined (Np.ones 5)) as [a Ha].
  destruct (sample_objective_defined (Np.zeros 5)) as [b Hb].
  destruct (objective_convex (f flat) [0; 0; 0; 0] lag_rows
              (Np.astype_float next_rows) 3 4 [0; 0; 0] 1 (1 / 2)
              (Np.ones 5) (Np.zeros 5) a b)
    as (c & Hc & Hle);
    [lia | lra | lra | reflexivity | reflexivity | exact Ha | exact Hb |].
  exists a, b, c. split; [lia|]. split; [lra|]. split; [lra|].
  split; [reflexivity|]. split; [reflexivity|]. auto.
Defined.

Lemma iterate_tol_too_large_witness :
  1 <= tol SampleFile.loose /\ g SampleFile.loose <> None
  /\ (μ SampleFile.loose = None -> v SampleFile.loose = None)
  /\ iterate stalled cramer3 1 SampleFile.loose 1 true
     = Raise OperandError (set_ξ_lower 1 true SampleFile.loose).
Proof.
  assert (H1 : 1 <= tol SampleFile.loose) by (cbn [tol SampleFile.loose set_g __init__]; lra).
  assert (H2 : g SampleFile.loose <> None) by discriminate.
  assert (H3 : μ SampleFile.loose = None -> v SampleFile.loose = None)
    by reflexivity.
  split; [exact H1|]. split; [exact H2|]. split; [exact H3|].
  exact (iterate_tol_too_large stalled cramer3 1 SampleFile.loose 1 true
           H1 H2 H3).
Defined.


Lemma iterate_forgets_state_witness :
  exists res t,
    same_inputs flat (set_v [7; 7; 7] flat)
    /\ iterate stalled cramer3 1 flat 1 true = Return res t
    /\ (exists t',
          iterate stalled cramer3 1 (set_v [7; 7; 7] flat) 1 true
          = Return res t')
    /\ exists t'', iterate stalled cramer3 1 t 1 true = Return res t''.
Proof.
  destruct (flat_iterate 0 flat true 1 flat_sampled) as (res & t & E & _);
    [lra|].
  assert (H : same_inputs flat (set_v [7; 7; 7] flat))
    by (repeat split).
  exists res, t. split; [exact H|]. split; [exact E|].
  exact (iterate_forgets_state stalled cramer3 1 flat (set_v [7; 7; 7] flat)
           1 true res t H E).
Defined.


Lemma find_xi_without_g_witness :
  g (data None) = None
  /\ find_ξ stalled cramer3 1 (data None) 0.5 true 1e-7 100
     = Raise (Exception "Sorry, please define self.g first!") (data None).
Proof.
  split; [reflexivity|].
  exact (find_xi_without_g stalled cramer3 1 (data None) 0.5 true 1e-7 100
           eq_refl).
Defined.

Lemma find_xi_converged_witness :
  exists s',
    find_ξ stalled cramer3 1 flat x_mid true 1e-7 2
    = Return ((1 + 100) / 2) s'
    /\ ~ ends_with_max_iter s'
    /\ exists ref s_ref s0 res re m,
         iterate stalled cramer3 1 flat 100 true = Return ref s_ref
         /\ iterate stalled cramer3 1 s0 ((1 + 100) / 2) true = Return res s'
         /\ RE ref = Some m /\ m <> 0 /\ RE res = Some re
         /\ Rabs (re / m - x_mid) < 1e-7
         /\ ξ s' = Some ((1 + 100) / 2).
Proof.
  destruct flat_find_ξ_converges as (s' & E & Hout).
  assert (H : ~ ends_with_max_iter s') by (intros H; exact (not_both s' Hout H)).
  exists s'. split; [exact E|]. split; [exact H|].
  exact (find_xi_converged stalled cramer3 1 flat x_mid true 1e-7 2
           ((1 + 100) / 2) s' E H).
Defined.

Lemma stationary_distribution_witness :
  exists res s',
    (forall A B y, cramer3 A B = Some y -> length y = length B)
    /\ exact_on_states cramer3
    /\ Forall one_hot (pd_indicator flat)
    /\ (forall i, (1 <= i <= n_states)%nat ->
          Np.select (rows_of (pd_lag_indicator flat) i) (pd_indicator flat)
          <> [])
    /\ iterate stalled cramer3 1 flat 1 true = Return res s'
    /\ Np.nr_sum (π res) = Some 1
    /\ forall j, (j < n_states)%nat ->
         Np.nr_dot (map (fun row => nth j row None) (P res)) (π res)
         = nth j (π res) None.
Proof.
  destruct (flat_iterate 0 flat true 1 flat_sampled) as (res & s' & E & _);
    [lra|].
  exists res, s'. split; [exact cramer3_shape|]. split; [exact cramer3_exact|].
  split; [exact next_rows_one_hot|]. split; [exact sample_populated|].
  split; [exact E|].
  exact (stationary_distribution stalled cramer3 1 flat 1 true res s'
           cramer3_shape cramer3_exact next_rows_one_hot sample_populated E).
Defined.

